(** * NonMessenger message-pool server: a shallow embedding of
    [server/server.js] and the properties of its broker core.

    The server keeps three collections on one object: [messagePool]
    (a JavaScript [Map] from message identifier to message), [userSessions]
    (a [Map] from session identifier to session) and [serverNodes] (a [Set]
    of node objects).  A JavaScript [Map] iterates in insertion order, so
    both maps are ordered association lists here; handlers are functions
    from the server state (and the clock reading they take with
    [Date.now()]) to the new state and the response they send. *)

From Stdlib Require Import List String ZArith Bool Lia.
Import ListNotations.

Local Open Scope string_scope.
Local Open Scope Z_scope.
Local Open Scope list_scope.

(** ** JavaScript values carried by request bodies and frames *)

(** What [JSON.parse] can put in a field.  Numbers are taken as integers
    (timestamps and durations in milliseconds).  An object or array is
    compared by reference, both by [===] and as a [Map] key: [addr] is the
    identity of the allocation. *)
Inductive jsval : Type :=
| JNull
| JBool (b : bool)
| JNum (n : Z)
| JStr (s : string)
| JObj (addr : nat).

(** [!v] is [negb (truthy v)]. *)
Definition truthy (v : jsval) : bool :=
  match v with
  | JNull => false
  | JBool b => b
  | JNum n => negb (n =? 0)
  | JStr s => negb (s =? "")%string
  | JObj _ => true
  end.

(** [a === b]; it is also the key comparison of [Map] on these values. *)
Definition strict_eq (a b : jsval) : bool :=
  match a, b with
  | JNull, JNull => true
  | JBool x, JBool y => Bool.eqb x y
  | JNum x, JNum y => x =? y
  | JStr x, JStr y => (x =? y)%string
  | JObj x, JObj y => Nat.eqb x y
  | _, _ => false
  end.

(** A field read off a parsed object: [None] is [undefined] (field absent). *)
Definition field := option jsval.

(** The guard [!f] fails, and the value is then at hand. *)
Definition present (f : field) : option jsval :=
  match f with
  | Some v => if truthy v then Some v else None
  | None => None
  end.

(** ** JavaScript [Map]: insertion-ordered association list *)

Module JsMap.
Section Ops.
Context {K V : Type}.
Variable eqb : K -> K -> bool.

Definition t : Type := list (K * V).

Definition keys (m : t) : list K := map fst m.

Fixpoint get (k : K) (m : t) : option V :=
  match m with
  | [] => None
  | (k', v) :: rest => if eqb k k' then Some v else get k rest
  end.

Definition has (k : K) (m : t) : bool :=
  existsb (fun e => eqb k (fst e)) m.

(** [m.set(k, v)]: an existing key keeps its place in the order and gets
    the new value; a new key goes to the end. *)
Fixpoint set (k : K) (v : V) (m : t) : t :=
  match m with
  | [] => [(k, v)]
  | (k', v') :: rest =>
      if eqb k k' then (k', v) :: rest else (k', v') :: set k v rest
  end.

(** The map after [m.delete(k)]; the call itself returns [has k m].  Keys
    are distinct in a [Map], so at most one entry goes. *)
Definition delete (k : K) (m : t) : t :=
  filter (fun e => negb (eqb k (fst e))) m.

Definition size (m : t) : nat := List.length m.

(** Deleting a batch of keys one after the other. *)
Definition delete_all (ks : list K) (m : t) : t :=
  fold_left (fun acc k => delete k acc) ks m.

End Ops.
End JsMap.

(** ** Data model *)

(** A pooled message, as [handleMessage] builds it. *)
Record message : Type := {
  id : jsval;
  recipientContactCode : jsval;
  encryptedMessage : jsval;
  timestamp : Z;
  ttl : Z;
  attempts : Z;
  maxAttempts : Z
}.

(** Frames the server writes to a WebSocket ([ws.send(JSON.stringify ...)]). *)
Inductive frame : Type :=
| registration_success (sessionId : string)
| new_message (payload : jsval) (messageId : jsval) (stamp : Z)
| error_frame (error : string)
| verbatim (text : string).

Inductive ready_state : Type := CONNECTING | OPEN | CLOSING | CLOSED.

(** A WebSocket object.  Whether [send] throws is the transport's business;
    [sent] records the frames written so far, oldest first. *)
Record socket : Type := {
  readyState : ready_state;
  sendThrows : bool;
  sent : list frame
}.

(** An entry of [userSessions].  [ws] refers to the socket object by the
    [sessionId] stamped on it at connection time. *)
Record session : Type := {
  ws : string;
  contactCode : string;
  lastSeen : Z;
  status : string
}.

(** An entry of [serverNodes]; [node_lastSeen] is its [lastSeen] field. *)
Record node : Type := {
  nodeUrl : jsval;
  publicKey : jsval;
  node_lastSeen : Z
}.

(** The server object.  [sockets] holds every WebSocket object the server was
    handed, keyed by its [sessionId]; [serverNodes] is a [Set] of object
    references, each paired with the object it points to; [nextAddr] is the
    next unused object identity; [replications] lists the replication
    requests issued with [fetch], oldest first. *)
Record server : Type := {
  messagePool : list (jsval * message);
  userSessions : list (string * session);
  serverNodes : list (nat * node);
  sockets : list (string * socket);
  nextAddr : nat;
  replications : list (jsval * message)
}.

Definition emptyServer : server :=
  {| messagePool := []; userSessions := []; serverNodes := [];
     sockets := []; nextAddr := 0%nat; replications := [] |}.

Definition with_messagePool (p : list (jsval * message)) (srv : server) : server :=
  {| messagePool := p; userSessions := userSessions srv;
     serverNodes := serverNodes srv; sockets := sockets srv;
     nextAddr := nextAddr srv; replications := replications srv |}.

Definition with_userSessions (u : list (string * session)) (srv : server) : server :=
  {| messagePool := messagePool srv; userSessions := u;
     serverNodes := serverNodes srv; sockets := sockets srv;
     nextAddr := nextAddr srv; replications := replications srv |}.

Definition with_sockets (s : list (string * socket)) (srv : server) : server :=
  {| messagePool := messagePool srv; userSessions := userSessions srv;
     serverNodes := serverNodes srv; sockets := s;
     nextAddr := nextAddr srv; replications := replications srv |}.

Definition with_replications (r : list (jsval * message)) (srv : server) : server :=
  {| messagePool := messagePool srv; userSessions := userSessions srv;
     serverNodes := serverNodes srv; sockets := sockets srv;
     nextAddr := nextAddr srv; replications := r |}.

(** The map operations at the key types in use. *)
Definition pool_get := @JsMap.get jsval message strict_eq.
Definition pool_has := @JsMap.has jsval message strict_eq.
Definition pool_set := @JsMap.set jsval message strict_eq.
Definition pool_delete := @JsMap.delete jsval message strict_eq.
Definition session_get := @JsMap.get string session String.eqb.
Definition session_has := @JsMap.has string session String.eqb.
Definition session_set := @JsMap.set string session String.eqb.
Definition session_delete := @JsMap.delete string session String.eqb.
Definition socket_get := @JsMap.get string socket String.eqb.
Definition socket_set := @JsMap.set string socket String.eqb.

(** ** Writing to and closing a socket *)

(** [ws.send(frame)]: [None] when the call throws.  A session always refers
    to a socket object; a reference to none counts as a throw. *)
Definition ws_send (wsid : string) (f : frame) (socks : list (string * socket))
  : option (list (string * socket)) :=
  match socket_get wsid socks with
  | Some sock =>
      if sendThrows sock then None
      else Some (socket_set wsid
                   {| readyState := readyState sock;
                      sendThrows := sendThrows sock;
                      sent := sent sock ++ [f] |} socks)
  | None => None
  end.

(** [ws.close()]. *)
Definition ws_close (wsid : string) (socks : list (string * socket))
  : list (string * socket) :=
  match socket_get wsid socks with
  | Some sock =>
      socket_set wsid
        {| readyState := CLOSING; sendThrows := sendThrows sock;
           sent := sent sock |} socks
  | None => socks
  end.

(** Frames written so far to the socket [wsid]. *)
Definition received (wsid : string) (srv : server) : list frame :=
  match socket_get wsid (sockets srv) with
  | Some sock => sent sock
  | None => []
  end.

(** ** HTTP responses *)

(** One element of the [messages] array of the pull response. *)
Record pulled : Type := {
  pulled_id : jsval;
  pulled_encryptedMessage : jsval;
  pulled_timestamp : Z
}.

Inductive response_body : Type :=
| error_body (error : string)
| publish_body (success : bool) (messageId : jsval) (delivered pooled : bool)
| messages_body (messages : list pulled)
| delete_body (success : bool)
| register_node_body (success : bool) (registeredNodes : nat).

Record response : Type := {
  status_code : Z;
  body : response_body
}.

Definition json (b : response_body) : response :=
  {| status_code := 200; body := b |}.

Definition bad_request (e : string) : response :=
  {| status_code := 400; body := error_body e |}.

(** ** Publish: [POST /api/message] *)

(** The fields [handleMessage] destructures from [req.body].  [req_ttl] is
    [None] when the body has no [ttl]; a given [ttl] is a number of
    milliseconds. *)
Record publish_request : Type := {
  req_recipientContactCode : field;
  req_encryptedMessage : field;
  req_messageId : field;
  req_ttl : option Z
}.

Definition default_ttl : Z := 86400000.

(** [attemptDirectDelivery]: the [for ... of this.userSessions] loop, run over
    the entries still to visit.  The loop only ever deletes the entry it is
    visiting, so the entries ahead are those of the map when the loop
    started. *)
Fixpoint attemptDirectDelivery_loop (msg : message)
    (entries : list (string * session)) (srv : server) : server * bool :=
  match entries with
  | [] => (srv, false)
  | (sessionId, sess) :: rest =>
      if strict_eq (JStr (contactCode sess)) (recipientContactCode msg) then
        match ws_send (ws sess)
                (new_message (encryptedMessage msg) (id msg) (timestamp msg))
                (sockets srv) with
        | Some socks => (with_sockets socks srv, true)
        | None =>
            attemptDirectDelivery_loop msg rest
              (with_userSessions (session_delete sessionId (userSessions srv)) srv)
        end
      else attemptDirectDelivery_loop msg rest srv
  end.

Definition attemptDirectDelivery (msg : message) (srv : server) : server * bool :=
  attemptDirectDelivery_loop msg (userSessions srv) srv.

(** [replicateToNodes]: one request per registered node, whatever its fate. *)
Definition replicateToNodes (msg : message) (srv : server) : server :=
  with_replications
    (replications srv ++ map (fun n => (nodeUrl (snd n), msg)) (serverNodes srv))
    srv.

(** [const message = { id: messageId, ... }]: the message [handleMessage]
    stores for a request with the three required fields at hand. *)
Definition stored_message (now : Z) (req : publish_request)
    (recipient encrypted messageId : jsval) : message :=
  {| id := messageId;
     recipientContactCode := recipient;
     encryptedMessage := encrypted;
     timestamp := now;
     ttl := match req_ttl req with Some t => t | None => default_ttl end;
     attempts := 0;
     maxAttempts := 3 |}.

(** [handleMessage].  The pool is written, the push is tried and the entry is
    deleted again before the handler first waits on the network (the
    replication requests), so no other handler runs in between; a parsed
    body makes none of these steps throw, so the [catch] that answers 500 is
    not part of the function below. *)
Definition handleMessage (now : Z) (req : publish_request) (srv : server)
  : server * response :=
  match present (req_recipientContactCode req),
        present (req_encryptedMessage req),
        present (req_messageId req) with
  | Some recipient, Some encrypted, Some messageId =>
      let msg := stored_message now req recipient encrypted messageId in
      let srv1 := with_messagePool (pool_set messageId msg (messagePool srv)) srv in
      let (srv2, delivered) := attemptDirectDelivery msg srv1 in
      let srv3 :=
        if delivered
        then with_messagePool (pool_delete messageId (messagePool srv2)) srv2
        else srv2 in
      let srv4 := replicateToNodes msg srv3 in
      (srv4, json (publish_body true messageId delivered (negb delivered)))
  | _, _, _ => (srv, bad_request "Missing required fields")
  end.

(** ** Pull: [GET /api/messages/:contactCode] *)

Fixpoint getMessages_loop (code : string) (entries : list (jsval * message))
    (pool : list (jsval * message)) (messages : list pulled)
  : list (jsval * message) * list pulled :=
  match entries with
  | [] => (pool, messages)
  | (messageId, msg) :: rest =>
      if strict_eq (recipientContactCode msg) (JStr code) then
        getMessages_loop code rest (pool_delete messageId pool)
          (messages ++ [{| pulled_id := messageId;
                           pulled_encryptedMessage := encryptedMessage msg;
                           pulled_timestamp := timestamp msg |}])
      else getMessages_loop code rest pool messages
  end.

Definition getMessages (code : string) (srv : server) : server * response :=
  let (pool, messages) :=
    getMessages_loop code (messagePool srv) (messagePool srv) [] in
  (with_messagePool pool srv, json (messages_body messages)).

(** ** Delete: [DELETE /api/message/:messageId] *)

Definition deleteMessage (messageId : string) (srv : server) : server * response :=
  let deleted := pool_has (JStr messageId) (messagePool srv) in
  (with_messagePool (pool_delete (JStr messageId) (messagePool srv)) srv,
   json (delete_body deleted)).

(** ** Node registry: [POST /api/register-node] *)

Record register_request : Type := {
  req_nodeUrl : field;
  req_publicKey : field
}.

(** [Set.prototype.add] on object references. *)
Definition set_add (addr : nat) (n : node) (s : list (nat * node)) : list (nat * node) :=
  if existsb (fun e => Nat.eqb addr (fst e)) s then s else s ++ [(addr, n)].

Definition registerNode (now : Z) (req : register_request) (srv : server)
  : server * response :=
  match present (req_nodeUrl req), present (req_publicKey req) with
  | Some url, Some key =>
      (* the object literal is a new allocation *)
      let addr := nextAddr srv in
      let nodes :=
        set_add addr {| nodeUrl := url; publicKey := key; node_lastSeen := now |}
          (serverNodes srv) in
      ({| messagePool := messagePool srv; userSessions := userSessions srv;
          serverNodes := nodes; sockets := sockets srv;
          nextAddr := S addr; replications := replications srv |},
       json (register_node_body true (List.length nodes)))
  | _, _ => (srv, bad_request "Missing node URL or public key")
  end.

(** ** Sweeps *)

Inductive log_line : Type :=
| cleaned_expired_messages (cleaned : nat)
| cleaned_inactive_sessions (cleaned : nat).

Definition expired (now : Z) (msg : message) : bool :=
  now - timestamp msg >? ttl msg.

Fixpoint cleanupExpiredMessages_loop (now : Z) (entries : list (jsval * message))
    (pool : list (jsval * message)) (cleaned : nat)
  : list (jsval * message) * nat :=
  match entries with
  | [] => (pool, cleaned)
  | (messageId, msg) :: rest =>
      if expired now msg
      then cleanupExpiredMessages_loop now rest (pool_delete messageId pool) (S cleaned)
      else cleanupExpiredMessages_loop now rest pool cleaned
  end.

(** [cleanupExpiredMessages] returns nothing; it logs the count when it is
    positive. *)
Definition cleanupExpiredMessages (now : Z) (srv : server) : server * list log_line :=
  let (pool, cleaned) :=
    cleanupExpiredMessages_loop now (messagePool srv) (messagePool srv) 0%nat in
  (with_messagePool pool srv,
   if (0 <? cleaned)%nat then [cleaned_expired_messages cleaned] else []).

Definition session_timeout : Z := 5 * 60 * 1000.

Definition inactive (now : Z) (sess : session) : bool :=
  now - lastSeen sess >? session_timeout.

Fixpoint cleanupInactiveSessions_loop (now : Z) (entries : list (string * session))
    (srv : server) (cleaned : nat) : server * nat :=
  match entries with
  | [] => (srv, cleaned)
  | (sessionId, sess) :: rest =>
      if inactive now sess then
        let srv1 := with_sockets (ws_close (ws sess) (sockets srv)) srv in
        let srv2 :=
          with_userSessions (session_delete sessionId (userSessions srv1)) srv1 in
        cleanupInactiveSessions_loop now rest srv2 (S cleaned)
      else cleanupInactiveSessions_loop now rest srv cleaned
  end.

Definition cleanupInactiveSessions (now : Z) (srv : server) : server * list log_line :=
  let (srv', cleaned) :=
    cleanupInactiveSessions_loop now (userSessions srv) srv 0%nat in
  (srv', if (0 <? cleaned)%nat then [cleaned_inactive_sessions cleaned] else []).

(** ** The WebSocket endpoint *)

(** What [handleWebSocketMessage] reads off [JSON.parse(data)]: the fields it
    looks at, and [msg_text], the [JSON.stringify] of the whole message. *)
Record ws_message : Type := {
  msg_type : field;
  msg_contactCode : field;
  msg_recipientContactCode : field;
  msg_text : string
}.

(** [unparsable]: [JSON.parse] throws, or yields [null] so that reading
    [message.type] throws. *)
Inductive ws_data : Type :=
| unparsable
| parsed (m : ws_message).

Inductive outcome : Type := Returned | Threw.

(** A [ws.send] outside any [try] of its own. *)
Definition send_to (wsid : string) (f : frame) (srv : server) : server * outcome :=
  match ws_send wsid f (sockets srv) with
  | Some socks => (with_sockets socks srv, Returned)
  | None => (srv, Threw)
  end.

(** The [connection] event: the socket gets its [sessionId]; no session is
    entered in [userSessions] yet. *)
Definition onConnection (sessionId : string) (throws : bool) (srv : server) : server :=
  with_sockets
    (socket_set sessionId
       {| readyState := OPEN; sendThrows := throws; sent := [] |} (sockets srv))
    srv.

(** The socket once its connection is gone: the library sets [readyState]
    to [CLOSED] and takes the socket out of [wss.clients]. *)
Definition ws_closed (wsid : string) (socks : list (string * socket))
  : list (string * socket) :=
  match socket_get wsid socks with
  | Some sock =>
      socket_set wsid
        {| readyState := CLOSED; sendThrows := sendThrows sock;
           sent := sent sock |} socks
  | None => socks
  end.

(** The [close] event of a socket: the socket is closed by the time the
    listener runs, and the listener deletes the session. *)
Definition onClose (sessionId : string) (srv : server) : server :=
  with_userSessions (session_delete sessionId (userSessions srv))
    (with_sockets (ws_closed sessionId (sockets srv)) srv).

Definition registerUser (now : Z) (wsid : string) (code : field) (srv : server)
  : server * outcome :=
  match present code with
  | Some (JStr c) =>
      let srv1 :=
        with_userSessions
          (session_set wsid
             {| ws := wsid; contactCode := c; lastSeen := now; status := "online" |}
             (userSessions srv))
          srv in
      send_to wsid (registration_success wsid) srv1
  | _ => send_to wsid (error_frame "Invalid contact code") srv
  end.

(** [session.contactCode === message.recipientContactCode]. *)
Definition addressed_to (f : field) (sess : session) : bool :=
  match f with
  | Some v => strict_eq (JStr (contactCode sess)) v
  | None => false
  end.

Fixpoint forwardRealTimeMessage_loop (m : ws_message)
    (entries : list (string * session)) (srv : server) : server :=
  match entries with
  | [] => srv
  | (sessionId, sess) :: rest =>
      if addressed_to (msg_recipientContactCode m) sess then
        match ws_send (ws sess) (verbatim (msg_text m)) (sockets srv) with
        | Some socks => forwardRealTimeMessage_loop m rest (with_sockets socks srv)
        | None =>
            forwardRealTimeMessage_loop m rest
              (with_userSessions (session_delete sessionId (userSessions srv)) srv)
        end
      else forwardRealTimeMessage_loop m rest srv
  end.

Definition forwardRealTimeMessage (m : ws_message) (srv : server) : server :=
  forwardRealTimeMessage_loop m (userSessions srv) srv.

Definition is_open (sock : socket) : bool :=
  match readyState sock with OPEN => true | _ => false end.

(** [broadcastStatusUpdate]: the loop over [this.wss.clients].  The clients
    are the sockets not yet closed; [sockets] also keeps the closed ones,
    which are not [OPEN] and are passed over like any client that is not. *)
Fixpoint broadcastStatusUpdate_loop (text : string)
    (clients : list (string * socket)) (srv : server) : server :=
  match clients with
  | [] => srv
  | (wsid, client) :: rest =>
      if is_open client then
        match ws_send wsid (verbatim text) (sockets srv) with
        | Some socks => broadcastStatusUpdate_loop text rest (with_sockets socks srv)
        | None => broadcastStatusUpdate_loop text rest srv
        end
      else broadcastStatusUpdate_loop text rest srv
  end.

Definition broadcastStatusUpdate (m : ws_message) (srv : server) : server :=
  broadcastStatusUpdate_loop (msg_text m) (sockets srv) srv.

(** A [case] of the [switch (message.type)]: [message.type === name]. *)
Definition type_is (m : ws_message) (name : string) : bool :=
  match msg_type m with
  | Some v => strict_eq v (JStr name)
  | None => false
  end.

(** The [switch (message.type)] inside the [try]. *)
Definition dispatch (now : Z) (wsid : string) (m : ws_message) (srv : server)
  : server * outcome :=
  if type_is m "register_user" then registerUser now wsid (msg_contactCode m) srv
  else if type_is m "status_update" then (broadcastStatusUpdate m srv, Returned)
  else if type_is m "real_time_message" then (forwardRealTimeMessage m srv, Returned)
  else send_to wsid (error_frame "Unknown message type") srv.

Definition handleWebSocketMessage (now : Z) (wsid : string) (data : ws_data)
    (srv : server) : server :=
  let (srv1, out) :=
    match data with
    | unparsable => (srv, Threw)
    | parsed m => dispatch now wsid m srv
    end in
  match out with
  | Returned => srv1
  | Threw => fst (send_to wsid (error_frame "Invalid message format") srv1)
  end.

(** ** Vocabulary of the statements *)

(** The entry's session is bound to [recipient]. *)
Definition bound_to (recipient : jsval) (sess : session) : bool :=
  strict_eq (JStr (contactCode sess)) recipient.

(** A write to the socket [wsid] goes through. *)
Definition writable (wsid : string) (socks : list (string * socket)) : bool :=
  match socket_get wsid socks with
  | Some sock => negb (sendThrows sock)
  | None => false
  end.

(** Some session bound to [recipient] has a socket that takes the write. *)
Definition some_write_succeeds (recipient : jsval) (srv : server) : bool :=
  existsb (fun e => bound_to recipient (snd e) && writable (ws (snd e)) (sockets srv))
    (userSessions srv).

(** The pool entry is addressed to the recipient code [code]. *)
Definition for_recipient (code : string) (e : jsval * message) : bool :=
  strict_eq (recipientContactCode (snd e)) (JStr code).

(** The pool entry as the pull response shows it. *)
Definition as_pulled (e : jsval * message) : pulled :=
  {| pulled_id := fst e;
     pulled_encryptedMessage := encryptedMessage (snd e);
     pulled_timestamp := timestamp (snd e) |}.



(** The [messages] array of a pull response. *)
Definition pulled_messages (r : response) : list pulled :=
  match body r with
  | messages_body l => l
  | _ => []
  end.

(** The expiry instant of the pool entry lies before [instant]. *)
Definition past_expiry (instant : Z) (e : jsval * message) : bool :=
  timestamp (snd e) + ttl (snd e) <? instant.

(** No key occurs twice in the maps, and every node reference is one that was
    handed out already.  It holds in every state the server goes through
    ([reachable_wf]). *)
Definition wf (srv : server) : Prop :=
  NoDup (JsMap.keys (messagePool srv)) /\
  NoDup (JsMap.keys (userSessions srv)) /\
  NoDup (JsMap.keys (sockets srv)) /\
  Forall (fun e => (fst e < nextAddr srv)%nat) (serverNodes srv).

(** The states the server goes through: it starts empty, and every event
    (a connection, a frame, a request, a sweep) runs one handler. *)
Inductive reachable : server -> Prop :=
| reach_start : reachable emptyServer
| reach_connection sessionId throws srv :
    reachable srv -> reachable (onConnection sessionId throws srv)
| reach_close sessionId srv :
    reachable srv -> reachable (onClose sessionId srv)
| reach_frame now wsid data srv :
    reachable srv -> reachable (handleWebSocketMessage now wsid data srv)
| reach_publish now req srv :
    reachable srv -> reachable (fst (handleMessage now req srv))
| reach_pull code srv :
    reachable srv -> reachable (fst (getMessages code srv))
| reach_delete messageId srv :
    reachable srv -> reachable (fst (deleteMessage messageId srv))
| reach_register_node now req srv :
    reachable srv -> reachable (fst (registerNode now req srv))
| reach_sweep_messages now srv :
    reachable srv -> reachable (fst (cleanupExpiredMessages now srv))
| reach_sweep_sessions now srv :
    reachable srv -> reachable (fst (cleanupInactiveSessions now srv)).

(** ** Scenarios *)

Definition register_user_frame (code : string) : ws_data :=
  parsed {| msg_type := Some (JStr "register_user");
            msg_contactCode := Some (JStr code);
            msg_recipientContactCode := None;
            msg_text := "" |}.

Definition status_update_frame : ws_data :=
  parsed {| msg_type := Some (JStr "status_update");
            msg_contactCode := None;
            msg_recipientContactCode := None;
            msg_text := "{type:status_update,status:online}" |}.

Definition real_time_frame (code : string) : ws_message :=
  {| msg_type := Some (JStr "real_time_message");
     msg_contactCode := None;
     msg_recipientContactCode := Some (JStr code);
     msg_text := "{type:real_time_message}" |}.

Definition publish (messageId code payload : string) (t : option Z) : publish_request :=
  {| req_recipientContactCode := Some (JStr code);
     req_encryptedMessage := Some (JStr payload);
     req_messageId := Some (JStr messageId);
     req_ttl := t |}.

(** Two devices of one user: sessions [s1] and [s2], both registered for
    recipient [R], both with a working socket. *)
Definition two_devices : server :=
  handleWebSocketMessage 10 "s2" (register_user_frame "R")
    (handleWebSocketMessage 5 "s1" (register_user_frame "R")
       (onConnection "s2" false (onConnection "s1" false emptyServer))).

(** One session [s1] registered for [R] at time 0. *)
Definition one_device : server :=
  handleWebSocketMessage 0 "s1" (register_user_frame "R")
    (onConnection "s1" false emptyServer).

(** A pool holding [m1] for [R], payload [X], published at 10 with a ttl of
    1000 ms, nobody connected. *)
Definition one_pooled : server :=
  fst (handleMessage 10 (publish "m1" "R" "X" (Some 1000)) emptyServer).

(** A pool holding [m1] and [m3] for [R] and [m2] for [Q]. *)
Definition three_pooled : server :=
  fst (handleMessage 30 (publish "m3" "R" "Z" None)
    (fst (handleMessage 20 (publish "m2" "Q" "Y" None) one_pooled))).

Definition node_request : register_request :=
  {| req_nodeUrl := Some (JStr "https://peer.example");
     req_publicKey := Some (JStr "key") |}.

(** ** Read-only endpoints: [GET /api/nodes] and [GET /health] *)

(** One element of the [nodes] array: the node's url and [lastSeen], not its
    public key. *)
Record node_view : Type := {
  view_nodeUrl : jsval;
  view_lastSeen : Z
}.

(** [getNodes]: the [nodes] array of the response, in the order of the set. *)
Definition getNodes (srv : server) : list node_view :=
  map (fun e => {| view_nodeUrl := nodeUrl (snd e);
                   view_lastSeen := node_lastSeen (snd e) |})
    (serverNodes srv).

(** The body of the [/health] response. *)
Record health_report : Type := {
  health_status : string;
  health_timestamp : Z;
  health_version : string;
  messagePoolSize : nat;
  activeSessions : nat;
  connectedNodes : nat
}.

Definition health (now : Z) (srv : server) : health_report :=
  {| health_status := "healthy";
     health_timestamp := now;
     health_version := "1.0.0";
     messagePoolSize := JsMap.size (messagePool srv);
     activeSessions := JsMap.size (userSessions srv);
     connectedNodes := List.length (serverNodes srv) |}.

(** Every session entry sits under the [sessionId] of its own socket, as
    [registerUser] enters it. *)
Definition sessions_own_socket (srv : server) : Prop :=
  Forall (fun e => ws (snd e) = fst e) (userSessions srv).

(** The session is bound to the recipient of a real-time message and its
    socket takes the write. *)
Definition reached_by (m : ws_message) (socks : list (string * socket))
    (e : string * session) : bool :=
  addressed_to (msg_recipientContactCode m) (snd e) && writable (ws (snd e)) socks.

(** The session is bound to the recipient of a real-time message and its
    socket throws on the write. *)
Definition dropped_by (m : ws_message) (socks : list (string * socket))
    (e : string * session) : bool :=
  addressed_to (msg_recipientContactCode m) (snd e)
  && negb (writable (ws (snd e)) socks).

(** The inbound data parses to a message of one of the three types the
    [switch] knows. *)
Definition understood (data : ws_data) : bool :=
  match data with
  | parsed m =>
      type_is m "register_user" || type_is m "status_update"
      || type_is m "real_time_message"
  | unparsable => false
  end.

(** The text of the error frame for data that is not [understood]. *)
Definition error_reply (data : ws_data) : string :=
  match data with
  | unparsable => "Invalid message format"
  | parsed _ => "Unknown message type"
  end.

(** The state after a write outside any [try] that nobody catches usefully:
    the frame is on the socket, or nothing has changed. *)
Definition after_reply (wsid : string) (f : frame) (srv : server) : server :=
  match ws_send wsid f (sockets srv) with
  | Some socks => with_sockets socks srv
  | None => srv
  end.

(** The socket after [ws.close()]. *)
Definition closing (sock : socket) : socket :=
  {| readyState := CLOSING; sendThrows := sendThrows sock; sent := sent sock |}.

(** What [registerUser] enters for a socket and a contact code. *)
Definition fresh_session (now : Z) (wsid code : string) : session :=
  {| ws := wsid; contactCode := code; lastSeen := now; status := "online" |}.

(** Further scenarios. *)


Definition unknown_frame : ws_data :=
  parsed {| msg_type := Some (JStr "ping");
            msg_contactCode := None;
            msg_recipientContactCode := None;
            msg_text := "{type:ping}" |}.

(** [s1] and [s2] registered for [R]; the socket of [s1] throws on every
    write, the socket of [s2] works. *)
Definition one_dead_device : server :=
  handleWebSocketMessage 10 "s2" (register_user_frame "R")
    (handleWebSocketMessage 5 "s1" (register_user_frame "R")
       (onConnection "s2" false (onConnection "s1" true emptyServer))).

(** [s1] registered for [R] on a socket that throws on every write. *)
Definition dead_device : server :=
  handleWebSocketMessage 5 "s1" (register_user_frame "R")
    (onConnection "s1" true emptyServer).

(** [s1] registered for [R], [s2] connected but never registered. *)
Definition one_registered_one_silent : server :=
  onConnection "s2" false one_device.

(** * Facts *)

(** ** The map operations *)

Module JsMapFacts.
Import JsMap.
Section Facts.
Context {K V : Type}.
Variable eqb : K -> K -> bool.
Local Abbreviation t := (list (K * V)).
Local Abbreviation get := (@JsMap.get K V eqb).
Local Abbreviation has := (@JsMap.has K V eqb).
Local Abbreviation set := (@JsMap.set K V eqb).
Local Abbreviation delete := (@JsMap.delete K V eqb).
Local Abbreviation delete_all := (@JsMap.delete_all K V eqb).
Local Abbreviation keys := (@JsMap.keys K V).
Local Abbreviation size := (@JsMap.size K V).

Hypothesis eqb_eq : forall a b, eqb a b = true <-> a = b.

Lemma eqb_refl a : eqb a a = true.
Proof. now apply eqb_eq. Qed.

Lemma eqb_neq a b : a <> b -> eqb a b = false.
Proof.
  intros Hn. destruct (eqb a b) eqn:E; [|reflexivity].
  apply eqb_eq in E. contradiction.
Qed.

Lemma has_In k m : has k m = true <-> In k (keys m).
Proof.
  unfold has, keys. rewrite existsb_exists, in_map_iff. split.
  - intros [e [Hin He]]. apply eqb_eq in He. exists e. now split.
  - intros [e [He Hin]]. exists e. split; [assumption|]. now apply eqb_eq.
Qed.

Lemma has_get k m : has k m = true <-> get k m <> None.
Proof.
  induction m as [|[k' v] rest IH]; simpl.
  - split; [discriminate | congruence].
  - destruct (eqb k k'); simpl; [split; [discriminate | reflexivity]|].
    exact IH.
Qed.

Lemma get_None_has k m : get k m = None <-> has k m = false.
Proof.
  pose proof (has_get k m) as H.
  destruct (has k m), (get k m); split; intros; try congruence.
  - exfalso. apply (proj1 H); [reflexivity | assumption].
  - exfalso. assert (true = true -> False) by
      (intro; destruct H as [_ H]; discriminate H; discriminate).
    auto.
Qed.

Lemma get_In k v m : get k m = Some v -> In (k, v) m.
Proof.
  induction m as [|[k' v'] rest IH]; simpl; [discriminate|].
  destruct (eqb k k') eqn:E.
  - intros [= ->]. apply eqb_eq in E. subst. now left.
  - intros H. right. auto.
Qed.

Lemma In_get k v m : NoDup (keys m) -> In (k, v) m -> get k m = Some v.
Proof.
  induction m as [|[k' v'] rest IH]; simpl; [contradiction|].
  intros Hnd [Heq | Hin].
  - injection Heq as -> ->. now rewrite eqb_refl.
  - inversion Hnd as [|? ? Hnot Hnd']; subst.
    rewrite eqb_neq; [auto|].
    intros ->. apply Hnot. unfold keys. change k' with (fst (k', v)).
    now apply in_map.
Qed.

Lemma get_set_same k v m : get k (set k v m) = Some v.
Proof.
  induction m as [|[k' v'] rest IH]; simpl.
  - now rewrite eqb_refl.
  - destruct (eqb k k') eqn:E; simpl; rewrite E; [reflexivity | exact IH].
Qed.

Lemma get_set_other k k' v m : k' <> k -> get k' (set k v m) = get k' m.
Proof.
  intros Hne. induction m as [|[k0 v0] rest IH]; simpl.
  - now rewrite eqb_neq.
  - destruct (eqb k k0) eqn:E; simpl.
    + apply eqb_eq in E. subst k0. now rewrite eqb_neq.
    + now rewrite IH.
Qed.

Lemma keys_set_present k v m : has k m = true -> keys (set k v m) = keys m.
Proof.
  induction m as [|[k' v'] rest IH]; simpl; [discriminate|].
  destruct (eqb k k') eqn:E; simpl; [reflexivity|].
  intros H. now rewrite IH.
Qed.

Lemma keys_set_absent k v m : has k m = false -> keys (set k v m) = keys m ++ [k].
Proof.
  induction m as [|[k' v'] rest IH]; simpl; [reflexivity|].
  destruct (eqb k k') eqn:E; simpl; [discriminate|].
  intros H. now rewrite IH.
Qed.

Lemma size_set_present k v m : has k m = true -> size (set k v m) = size m.
Proof.
  intros H. apply keys_set_present with (v := v) in H.
  unfold size, keys in *. now rewrite <- (length_map fst), H, length_map.
Qed.

Lemma has_delete k m : has k (delete k m) = false.
Proof.
  unfold has, delete. induction m as [|[k' v'] rest IH]; simpl; [reflexivity|].
  destruct (eqb k k') eqn:E; simpl; [exact IH|]. now rewrite E.
Qed.

Lemma get_delete_same k m : get k (delete k m) = None.
Proof. apply get_None_has, has_delete. Qed.

Lemma get_delete_other k k' m : k' <> k -> get k' (delete k m) = get k' m.
Proof.
  intros Hne. unfold delete.
  induction m as [|[k0 v0] rest IH]; simpl; [reflexivity|].
  destruct (eqb k k0) eqn:E; simpl.
  - apply eqb_eq in E. subst. now rewrite eqb_neq.
  - now rewrite IH.
Qed.

Lemma delete_absent k m : has k m = false -> delete k m = m.
Proof.
  unfold has, delete. induction m as [|[k' v'] rest IH]; simpl; [reflexivity|].
  destruct (eqb k k') eqn:E; simpl; [discriminate|].
  intros H. now rewrite IH.
Qed.

Lemma NoDup_set k v m : NoDup (keys m) -> NoDup (keys (set k v m)).
Proof.
  intros Hnd. destruct (has k m) eqn:E.
  - now rewrite keys_set_present.
  - rewrite keys_set_absent by assumption.
    apply NoDup_app; [assumption | repeat constructor; intros [] |].
    intros x Hx [<- | []].
    apply has_In in Hx. congruence.
Qed.

Lemma keys_filter (p : K * V -> bool) m :
  NoDup (keys m) -> NoDup (keys (filter p m)).
Proof.
  induction m as [|e rest IH]; simpl; [constructor|].
  intros Hnd. inversion Hnd as [|? ? Hnot Hnd']; subst.
  destruct (p e); simpl; [|auto].
  constructor; [|auto].
  intros Hin. apply Hnot. unfold keys in *.
  apply in_map_iff in Hin as [e' [He' Hin]].
  apply filter_In in Hin as [Hin _]. rewrite <- He'. now apply in_map.
Qed.

Lemma NoDup_delete k m : NoDup (keys m) -> NoDup (keys (delete k m)).
Proof. apply keys_filter. Qed.

Lemma delete_all_filter ks m :
  delete_all ks m = filter (fun e => negb (existsb (eqb (fst e)) ks)) m.
Proof.
  unfold delete_all. revert m.
  induction ks as [|k ks IH]; intros m; simpl.
  - induction m as [|e rest IHm]; simpl; [reflexivity|]. now rewrite <- IHm.
  - rewrite IH. unfold delete.
    induction m as [|e rest IHm]; simpl; [reflexivity|].
    destruct (eqb k (fst e)) eqn:E; simpl.
    + apply eqb_eq in E. subst k. rewrite eqb_refl. simpl. exact IHm.
    + assert (eqb (fst e) k = false) as ->.
      { apply eqb_neq. intros Heq. symmetry in Heq. apply eqb_eq in Heq.
        congruence. }
      simpl. destruct (existsb (eqb (fst e)) ks); simpl; [|f_equal]; exact IHm.
Qed.

(** With distinct keys, deleting the keys of the entries that satisfy [p]
    leaves exactly the entries that do not. *)
Lemma delete_all_selected (p : K * V -> bool) m :
  NoDup (keys m) ->
  delete_all (keys (filter p m)) m = filter (fun e => negb (p e)) m.
Proof.
  intros Hnd. rewrite delete_all_filter. apply filter_ext_in.
  intros e Hin. f_equal.
  destruct (p e) eqn:Hp.
  - apply existsb_exists. exists (fst e). split; [|apply eqb_refl].
    unfold keys. apply in_map. apply filter_In. now split.
  - destruct (existsb (eqb (fst e)) (keys (filter p m))) eqn:Hex; [|reflexivity].
    apply existsb_exists in Hex as [k [Hk Hek]]. apply eqb_eq in Hek. subst k.
    unfold keys in Hk. apply in_map_iff in Hk as [e' [Hfst Hin']].
    apply filter_In in Hin' as [Hin' Hp'].
    assert (e' = e) as ->; [|congruence].
    destruct e as [k v], e' as [k' v']. simpl in Hfst. subst k'.
    apply (In_get _ _ _ Hnd) in Hin. apply (In_get _ _ _ Hnd) in Hin'.
    congruence.
Qed.

Lemma has_delete_all k ks m : In k ks -> has k (delete_all ks m) = false.
Proof.
  intros Hin. rewrite delete_all_filter. unfold JsMap.has.
  destruct (existsb _ _) eqn:E; [|reflexivity].
  apply existsb_exists in E as [e [He Hk]]. apply filter_In in He as [_ He].
  apply eqb_eq in Hk. subst k.
  assert (existsb (eqb (fst e)) ks = true) as Hex.
  { apply existsb_exists. exists (fst e). split; [assumption | apply eqb_refl]. }
  rewrite Hex in He. discriminate.
Qed.


Lemma get_filter (p : K * V -> bool) k v m :
  NoDup (keys m) -> get k m = Some v ->
  get k (filter p m) = if p (k, v) then Some v else None.
Proof.
  intros Hnd Hget. pose proof (get_In _ _ _ Hget) as Hin.
  destruct (p (k, v)) eqn:Hp.
  - apply In_get; [now apply keys_filter|]. apply filter_In. now split.
  - destruct (get k (filter p m)) as [v'|] eqn:E; [|reflexivity].
    apply get_In in E. apply filter_In in E as [Hin' Hp'].
    apply (In_get _ _ _ Hnd) in Hin'. congruence.
Qed.

End Facts.
End JsMapFacts.

Lemma strict_eq_eq (a b : jsval) : strict_eq a b = true <-> a = b.
Proof.
  destruct a, b; simpl; split; intros H; try discriminate; try reflexivity.
  - apply Bool.eqb_prop in H. now subst.
  - injection H as ->. apply Bool.eqb_reflx.
  - apply Z.eqb_eq in H. now subst.
  - injection H as ->. apply Z.eqb_refl.
  - apply String.eqb_eq in H. now subst.
  - injection H as ->. apply String.eqb_refl.
  - apply Nat.eqb_eq in H. now subst.
  - injection H as ->. apply Nat.eqb_refl.
Qed.

Lemma present_Some (f : field) (v : jsval) :
  present f = Some v <-> f = Some v /\ truthy v = true.
Proof.
  unfold present. destruct f as [w|]; [destruct (truthy w) eqn:E|]; split.
  - intros [= ->]. now split.
  - now intros [H _].
  - discriminate.
  - intros [[= ->] H]. congruence.
  - discriminate.
  - now intros [H _].
Qed.


(** ** Writes and the push loop *)

Lemma ws_send_writable wsid f socks :
  writable wsid socks = true <-> ws_send wsid f socks <> None.
Proof.
  unfold writable, ws_send. destruct (socket_get wsid socks) as [sock|].
  - destruct (sendThrows sock); simpl; split; congruence.
  - split; congruence.
Qed.

Lemma ws_send_throws wsid f socks :
  ws_send wsid f socks = None -> writable wsid socks = false.
Proof.
  intros H. destruct (writable wsid socks) eqn:E; [|reflexivity].
  apply (ws_send_writable wsid f) in E. contradiction.
Qed.

Section PushLoop.
Variable msg : message.

(** The loop stops at the first bound session whose socket takes the write;
    it reports [true] exactly when there is one. *)
Lemma attemptDirectDelivery_loop_result entries :
  forall srv,
    snd (attemptDirectDelivery_loop msg entries srv) =
    existsb (fun e => bound_to (recipientContactCode msg) (snd e)
                      && writable (ws (snd e)) (sockets srv)) entries.
Proof.
  induction entries as [|[sessionId sess] rest IH]; intros srv;
    cbn [attemptDirectDelivery_loop existsb snd fst].
  - reflexivity.
  - unfold bound_to at 1.
    destruct (strict_eq (JStr (contactCode sess)) (recipientContactCode msg)).
    + destruct (ws_send (ws sess) _ (sockets srv)) as [socks|] eqn:Hsend.
      * assert (writable (ws sess) (sockets srv) = true) as ->.
        { eapply ws_send_writable. rewrite Hsend. discriminate. }
        reflexivity.
      * rewrite (ws_send_throws _ _ _ Hsend). cbn [andb orb]. now rewrite IH.
    + cbn [andb orb]. apply IH.
Qed.

(** Pushing touches neither the pool, nor the node set, nor the list of
    replication requests. *)
Lemma attemptDirectDelivery_loop_frame entries :
  forall srv,
    let srv' := fst (attemptDirectDelivery_loop msg entries srv) in
    messagePool srv' = messagePool srv /\
    serverNodes srv' = serverNodes srv /\
    nextAddr srv' = nextAddr srv /\
    replications srv' = replications srv.
Proof.
  induction entries as [|[sessionId sess] rest IH]; intros srv;
    cbn [attemptDirectDelivery_loop].
  - repeat split.
  - destruct (strict_eq _ _); [|apply IH].
    destruct (ws_send _ _ _); [repeat split|].
    apply (IH (with_userSessions _ srv)).
Qed.
End PushLoop.

Lemma attemptDirectDelivery_result msg srv :
  snd (attemptDirectDelivery msg srv) =
  some_write_succeeds (recipientContactCode msg) srv.
Proof. apply attemptDirectDelivery_loop_result. Qed.

Lemma attemptDirectDelivery_pool msg srv :
  messagePool (fst (attemptDirectDelivery msg srv)) = messagePool srv.
Proof. apply attemptDirectDelivery_loop_frame. Qed.

(** What a publish with its three required fields does, step by step. *)
Lemma handleMessage_accepted now req srv recipient encrypted messageId :
  present (req_recipientContactCode req) = Some recipient ->
  present (req_encryptedMessage req) = Some encrypted ->
  present (req_messageId req) = Some messageId ->
  let msg := stored_message now req recipient encrypted messageId in
  let delivered := some_write_succeeds recipient srv in
  snd (handleMessage now req srv) =
    json (publish_body true messageId delivered (negb delivered)) /\
  messagePool (fst (handleMessage now req srv)) =
    if delivered
    then pool_delete messageId (pool_set messageId msg (messagePool srv))
    else pool_set messageId msg (messagePool srv).
Proof.
  intros Hr He Hi msg delivered. unfold handleMessage.
  rewrite Hr, He, Hi. fold msg.
  set (srv1 := with_messagePool (pool_set messageId msg (messagePool srv)) srv).
  pose proof (attemptDirectDelivery_result msg srv1) as Hres.
  pose proof (attemptDirectDelivery_pool msg srv1) as Hpool.
  destruct (attemptDirectDelivery msg srv1) as [srv2 d].
  cbn [fst snd] in Hres, Hpool.
  change (some_write_succeeds (recipientContactCode msg) srv1)
    with delivered in Hres.
  subst d. cbn [fst snd]. split; [reflexivity|].
  destruct delivered; cbn [replicateToNodes with_replications with_messagePool messagePool];
    rewrite Hpool; reflexivity.
Qed.

Lemma received_after_send wsid f socks socks' srv srv' :
  sockets srv = socks -> sockets srv' = socks' ->
  ws_send wsid f socks = Some socks' ->
  received wsid srv' = received wsid srv ++ [f].
Proof.
  intros <- <-. unfold ws_send, received.
  destruct (socket_get wsid (sockets srv)) as [sock|]; [|discriminate].
  destruct (sendThrows sock); [discriminate|].
  intros [= <-]. unfold socket_get, socket_set.
  now rewrite (JsMapFacts.get_set_same String.eqb String.eqb_eq).
Qed.

(** When the push loop reports [true], one bound session of those it went
    through got the frame; when it reports [false], no socket was written. *)
Lemma attemptDirectDelivery_loop_written msg entries :
  forall srv,
    let out := attemptDirectDelivery_loop msg entries srv in
    (snd out = true ->
       exists sessionId sess,
         In (sessionId, sess) entries /\
         bound_to (recipientContactCode msg) sess = true /\
         received (ws sess) (fst out) =
           received (ws sess) srv ++
             [new_message (encryptedMessage msg) (id msg) (timestamp msg)]) /\
    (snd out = false -> sockets (fst out) = sockets srv).
Proof.
  induction entries as [|[sessionId sess] rest IH]; intros srv;
    cbn [attemptDirectDelivery_loop].
  - split; [discriminate | reflexivity].
  - destruct (strict_eq (JStr (contactCode sess)) (recipientContactCode msg)) eqn:Hb.
    + destruct (ws_send (ws sess) _ (sockets srv)) as [socks|] eqn:Hsend.
      * split; [|discriminate]. intros _. exists sessionId, sess.
        split; [now left|]. split; [exact Hb|].
        eapply received_after_send; [reflexivity | | exact Hsend]. reflexivity.
      * destruct (IH (with_userSessions
                        (session_delete sessionId (userSessions srv)) srv))
          as [Ht Hf].
        split; [|exact Hf].
        intros H. destruct (Ht H) as [sid [s [Hin Hrest]]].
        exists sid, s. split; [now right | exact Hrest].
    + destruct (IH srv) as [Ht Hf]. split; [|exact Hf].
      intros H. destruct (Ht H) as [sid [s [Hin Hrest]]].
      exists sid, s. split; [now right | exact Hrest].
Qed.

Lemma handleMessage_sockets now req srv recipient encrypted messageId :
  present (req_recipientContactCode req) = Some recipient ->
  present (req_encryptedMessage req) = Some encrypted ->
  present (req_messageId req) = Some messageId ->
  let msg := stored_message now req recipient encrypted messageId in
  sockets (fst (handleMessage now req srv)) =
  sockets (fst (attemptDirectDelivery msg
                  (with_messagePool (pool_set messageId msg (messagePool srv)) srv))).
Proof.
  intros Hr He Hi msg. unfold handleMessage. rewrite Hr, He, Hi. fold msg.
  destruct (attemptDirectDelivery msg _) as [srv2 d]. now destruct d.
Qed.

(** C5: a publish with its three required fields answers delivered=true and
    leaves the envelope out of the pool when the write of the new_message
    frame goes through for some session bound to the recipient (and that
    session's socket then holds the frame with the identifier, the payload
    and the timestamp); otherwise it answers pooled=true, writes to no socket
    and the pool holds the envelope.  In both cases pooled is the negation of
    delivered. *)
Theorem C5_publish_delivered_or_pooled
    now req srv recipient encrypted messageId :
  present (req_recipientContactCode req) = Some recipient ->
  present (req_encryptedMessage req) = Some encrypted ->
  present (req_messageId req) = Some messageId ->
  let srv' := fst (handleMessage now req srv) in
  let resp := snd (handleMessage now req srv) in
  (some_write_succeeds recipient srv = true ->
     resp = json (publish_body true messageId true false) /\
     pool_get messageId (messagePool srv') = None /\
     exists sessionId sess,
       In (sessionId, sess) (userSessions srv) /\
       bound_to recipient sess = true /\
       received (ws sess) srv' =
         received (ws sess) srv ++ [new_message encrypted messageId now]) /\
  (some_write_succeeds recipient srv = false ->
     resp = json (publish_body true messageId false true) /\
     pool_get messageId (messagePool srv') =
       Some (stored_message now req recipient encrypted messageId) /\
     sockets srv' = sockets srv) /\
  (exists delivered,
     resp = json (publish_body true messageId delivered (negb delivered))).
Proof.
  intros Hr He Hi srv' resp.
  destruct (handleMessage_accepted now req srv _ _ _ Hr He Hi) as [Hresp Hpool].
  pose proof (handleMessage_sockets now req srv _ _ _ Hr He Hi) as Hsock.
  cbv zeta in Hresp, Hpool, Hsock. fold srv' in Hpool, Hsock. fold resp in Hresp.
  set (msg := stored_message now req recipient encrypted messageId) in *.
  set (srv1 := with_messagePool (pool_set messageId msg (messagePool srv)) srv) in *.
  pose proof (attemptDirectDelivery_result msg srv1) as Hres.
  destruct (attemptDirectDelivery_loop_written msg (userSessions srv1) srv1)
    as [Ht Hf].
  fold (attemptDirectDelivery msg srv1) in Ht, Hf.
  change (some_write_succeeds (recipientContactCode msg) srv1)
    with (some_write_succeeds recipient srv) in Hres.
  repeat split.
  - rewrite Hresp, H. reflexivity.
  - rewrite Hpool, H. apply (JsMapFacts.get_delete_same strict_eq).
  - rewrite H in Hres. destruct (Ht Hres) as [sid [s [Hin [Hb Hrec]]]].
    exists sid, s. split; [exact Hin|]. split; [exact Hb|].
    unfold received in *. rewrite Hsock. exact Hrec.
  - rewrite Hresp, H. reflexivity.
  - rewrite Hpool, H. apply (JsMapFacts.get_set_same strict_eq strict_eq_eq).
  - rewrite Hsock. rewrite H in Hres. apply (Hf Hres).
  - exists (some_write_succeeds recipient srv). exact Hresp.
Qed.

Lemma C5_publish_delivered_or_pooled_witness :
  let req := publish "m4" "R" "X" (Some 1000) in
  (present (req_recipientContactCode req) = Some (JStr "R") /\
   present (req_encryptedMessage req) = Some (JStr "X") /\
   present (req_messageId req) = Some (JStr "m4") /\
   some_write_succeeds (JStr "R") two_devices = true) /\
  snd (handleMessage 20 req two_devices) =
    json (publish_body true (JStr "m4") true false) /\
  pool_get (JStr "m4") (messagePool (fst (handleMessage 20 req two_devices))) = None.
Proof.
  intros req. split; [repeat split|].
  destruct (C5_publish_delivered_or_pooled 20 req two_devices
              (JStr "R") (JStr "X") (JStr "m4") eq_refl eq_refl eq_refl)
    as [Hdelivered _].
  destruct (Hdelivered eq_refl) as [Hresp [Hpool _]].
  split; [exact Hresp | exact Hpool].
Defined.

(** ** Rejected publishes *)

Lemma handleMessage_rejected now req srv :
  present (req_recipientContactCode req) = None \/
  present (req_encryptedMessage req) = None \/
  present (req_messageId req) = None ->
  handleMessage now req srv = (srv, bad_request "Missing required fields").
Proof.
  unfold handleMessage.
  intros [H | [H | H]]; rewrite H;
    repeat match goal with
           | |- context [match present ?f with _ => _ end] => destruct (present f)
           end; reflexivity.
Qed.

(** C8: a publish whose body lacks the recipient code, the payload or the
    identifier is answered 400 and leaves the whole server state as it was:
    nothing is pooled, no socket is written, no replication request goes
    out. *)
Theorem C8_missing_field_rejected now req srv :
  req_recipientContactCode req = None \/
  req_encryptedMessage req = None \/
  req_messageId req = None ->
  handleMessage now req srv =
    (srv, {| status_code := 400; body := error_body "Missing required fields" |}).
Proof.
  intros H. apply handleMessage_rejected.
  destruct H as [H | [H | H]]; rewrite H; simpl; auto.
Qed.

Lemma C8_missing_field_rejected_witness :
  let req := {| req_recipientContactCode := Some (JStr "R");
                req_encryptedMessage := None;
                req_messageId := Some (JStr "m9");
                req_ttl := None |} in
  req_encryptedMessage req = None /\
  handleMessage 20 req two_devices =
    (two_devices,
     {| status_code := 400; body := error_body "Missing required fields" |}).
Proof.
  intros req. split; [reflexivity|].
  apply (C8_missing_field_rejected 20 req two_devices).
  right. left. reflexivity.
Defined.

(** A field that is there but falsy ([null], [false], [0], the empty string)
    is rejected the same way. *)
Lemma handleMessage_falsy_rejected now req srv v :
  truthy v = false ->
  req_messageId req = Some v ->
  handleMessage now req srv = (srv, bad_request "Missing required fields").
Proof.
  intros Hv Hf. apply handleMessage_rejected. right. right.
  rewrite Hf. simpl. now rewrite Hv.
Qed.

(** ** Publishing an identifier that is already pooled *)




(** ** One publish, several devices *)

Lemma received_other_send wsid wsid' f socks socks' srv srv' :
  sockets srv = socks -> sockets srv' = socks' ->
  ws_send wsid f socks = Some socks' ->
  wsid' <> wsid ->
  received wsid' srv' = received wsid' srv.
Proof.
  intros <- <-. unfold ws_send, received.
  destruct (socket_get wsid (sockets srv)) as [sock|]; [|discriminate].
  destruct (sendThrows sock); [discriminate|].
  intros [= <-] Hne. unfold socket_get, socket_set.
  now rewrite (JsMapFacts.get_set_other String.eqb String.eqb_eq).
Qed.

(** The push loop writes to one socket at most: once a write has gone
    through it returns, and every other socket holds what it held. *)
Lemma attemptDirectDelivery_loop_single msg entries :
  forall srv,
    exists wsid,
      forall other, other <> wsid ->
        received other (fst (attemptDirectDelivery_loop msg entries srv)) =
        received other srv.
Proof.
  induction entries as [|[sessionId sess] rest IH]; intros srv;
    cbn [attemptDirectDelivery_loop].
  - exists "". reflexivity.
  - destruct (strict_eq _ _); [|apply IH].
    destruct (ws_send (ws sess) _ (sockets srv)) as [socks|] eqn:Hsend.
    + exists (ws sess). intros other Hne.
      eapply received_other_send; [reflexivity | | exact Hsend | exact Hne].
      reflexivity.
    + destruct (IH (with_userSessions
                      (session_delete sessionId (userSessions srv)) srv))
        as [wsid Hw].
      exists wsid. exact Hw.
Qed.

(** C1, on the code: with sessions [s1] and [s2] both bound to [R] and both
    sockets taking writes, one publish for [R] is answered delivered=true,
    [s1] gets the new_message frame, and [s2] gets no frame at all. *)
Theorem C1_second_device_not_pushed :
  let out := handleMessage 20 (publish "m4" "R" "X" None) two_devices in
  option_map contactCode (session_get "s1" (userSessions two_devices)) = Some "R" /\
  option_map contactCode (session_get "s2" (userSessions two_devices)) = Some "R" /\
  writable "s1" (sockets two_devices) = true /\
  writable "s2" (sockets two_devices) = true /\
  snd out = json (publish_body true (JStr "m4") true false) /\
  received "s1" (fst out) =
    received "s1" two_devices ++ [new_message (JStr "X") (JStr "m4") 20] /\
  received "s2" (fst out) = received "s2" two_devices /\
  ~ In (new_message (JStr "X") (JStr "m4") 20) (received "s2" (fst out)).
Proof.
  vm_compute. repeat split. intros [H | []]. discriminate H.
Qed.

(** The forwarding loop for real-time messages, next to it in the source,
    goes through every bound session: in the same state both devices get
    the frame. *)
Lemma forwardRealTimeMessage_reaches_both_devices :
  let srv := forwardRealTimeMessage (real_time_frame "R") two_devices in
  received "s1" srv = received "s1" two_devices ++ [verbatim "{type:real_time_message}"] /\
  received "s2" srv = received "s2" two_devices ++ [verbatim "{type:real_time_message}"].
Proof. vm_compute. split; reflexivity. Qed.

(** ** The node set *)

Lemma set_add_fresh addr n s :
  Forall (fun e => (fst e < addr)%nat) s -> set_add addr n s = s ++ [(addr, n)].
Proof.
  intros Hall. unfold set_add.
  destruct (existsb (fun e => Nat.eqb addr (fst e)) s) eqn:E; [|reflexivity].
  apply existsb_exists in E as [e [Hin He]]. apply Nat.eqb_eq in He.
  rewrite Forall_forall in Hall. specialize (Hall e Hin). lia.
Qed.

(** Every accepted registration adds an entry: the object it adds is a new
    one, whatever its [nodeUrl] and [publicKey]. *)
Lemma registerNode_always_adds now req srv url key :
  present (req_nodeUrl req) = Some url ->
  present (req_publicKey req) = Some key ->
  Forall (fun e => (fst e < nextAddr srv)%nat) (serverNodes srv) ->
  let out := registerNode now req srv in
  List.length (serverNodes (fst out)) = S (List.length (serverNodes srv)) /\
  snd out = json (register_node_body true (S (List.length (serverNodes srv)))) /\
  Forall (fun e => (fst e < nextAddr (fst out))%nat) (serverNodes (fst out)).
Proof.
  intros Hu Hk Hall. unfold registerNode. rewrite Hu, Hk. cbn [fst snd serverNodes nextAddr].
  rewrite (set_add_fresh _ _ _ Hall), length_app. cbn [List.length].
  rewrite Nat.add_1_r. repeat split.
  apply Forall_app. split.
  - eapply Forall_impl; [|exact Hall]. cbn beta. intros e He. lia.
  - repeat constructor.
Qed.

(** C4, on the code: registering the same node url and public key twice on a
    fresh server leaves two entries in the registry, and the second answer
    reports two registered nodes. *)
Theorem C4_register_node_twice_grows :
  let first := registerNode 1 node_request emptyServer in
  let second := registerNode 2 node_request (fst first) in
  List.length (serverNodes (fst first)) = 1%nat /\
  List.length (serverNodes (fst second)) = 2%nat /\
  snd second = json (register_node_body true 2) /\
  map (fun e => node_lastSeen (snd e)) (serverNodes (fst second)) = [1; 2].
Proof. vm_compute. repeat split. Qed.

(** ** Pull *)

Lemma getMessages_loop_spec code entries :
  forall pool acc,
    getMessages_loop code entries pool acc =
    (JsMap.delete_all strict_eq
       (JsMap.keys (filter (for_recipient code) entries)) pool,
     acc ++ map as_pulled (filter (for_recipient code) entries)).
Proof.
  induction entries as [|[messageId msg] rest IH]; intros pool acc;
    cbn [getMessages_loop filter].
  - cbn. now rewrite app_nil_r.
  - change (strict_eq (recipientContactCode msg) (JStr code))
      with (for_recipient code (messageId, msg)).
    destruct (for_recipient code (messageId, msg)).
    + rewrite IH. cbn [map JsMap.keys fst]. rewrite <- app_assoc. reflexivity.
    + apply IH.
Qed.

Lemma getMessages_spec code srv :
  getMessages code srv =
  (with_messagePool
     (JsMap.delete_all strict_eq
        (JsMap.keys (filter (for_recipient code) (messagePool srv)))
        (messagePool srv)) srv,
   json (messages_body (map as_pulled (filter (for_recipient code) (messagePool srv))))).
Proof. unfold getMessages. now rewrite getMessages_loop_spec. Qed.

Lemma filter_filter_neg {A} (p : A -> bool) (l : list A) :
  filter p (filter (fun x => negb (p x)) l) = [].
Proof.
  induction l as [|x l IH]; cbn; [reflexivity|].
  destruct (p x) eqn:E; cbn; [exact IH|]. now rewrite E.
Qed.

(** C6: one pull for a recipient code returns every pooled envelope addressed
    to it, in the order of the pool (the order of insertion), and leaves in
    the pool exactly the envelopes addressed elsewhere; a second pull right
    after returns the empty list and changes nothing. *)
Theorem C6_pull_drains_recipient code srv :
  NoDup (JsMap.keys (messagePool srv)) ->
  let first := getMessages code srv in
  let second := getMessages code (fst first) in
  snd first =
    json (messages_body
            (map as_pulled (filter (for_recipient code) (messagePool srv)))) /\
  messagePool (fst first) =
    filter (fun e => negb (for_recipient code e)) (messagePool srv) /\
  snd second = json (messages_body []) /\
  fst second = fst first.
Proof.
  intros Hnd first second.
  assert (messagePool (fst first) =
          filter (fun e => negb (for_recipient code e)) (messagePool srv)) as Hpool.
  { unfold first. rewrite getMessages_spec. cbn [fst messagePool with_messagePool].
    apply (JsMapFacts.delete_all_selected strict_eq strict_eq_eq). exact Hnd. }
  split; [unfold first; now rewrite getMessages_spec|].
  split; [exact Hpool|].
  unfold second. rewrite getMessages_spec. rewrite Hpool, filter_filter_neg.
  cbn [snd fst map JsMap.keys JsMap.delete_all fold_left].
  split; [reflexivity|].
  rewrite <- Hpool. unfold first. rewrite getMessages_spec. reflexivity.
Qed.

Lemma C6_pull_drains_recipient_witness :
  NoDup (JsMap.keys (messagePool three_pooled)) /\
  pulled_messages (snd (getMessages "R" three_pooled)) =
    [ {| pulled_id := JStr "m1"; pulled_encryptedMessage := JStr "X";
         pulled_timestamp := 10 |};
      {| pulled_id := JStr "m3"; pulled_encryptedMessage := JStr "Z";
         pulled_timestamp := 30 |} ] /\
  JsMap.keys (messagePool (fst (getMessages "R" three_pooled))) = [JStr "m2"] /\
  pulled_messages (snd (getMessages "R" (fst (getMessages "R" three_pooled)))) = [].
Proof.
  assert (NoDup (JsMap.keys (messagePool three_pooled))) as Hnd.
  { vm_compute. repeat constructor; cbn; intuition discriminate. }
  split; [exact Hnd|].
  destruct (C6_pull_drains_recipient "R" three_pooled Hnd) as [H1 [H2 [H3 _]]].
  rewrite H1, H2, H3. repeat split.
Defined.

(** A publish nobody is connected for puts a new identifier at the end of
    the pool: the order of the pool is the order of insertion. *)
Lemma handleMessage_pools_at_end now req srv recipient encrypted messageId :
  present (req_recipientContactCode req) = Some recipient ->
  present (req_encryptedMessage req) = Some encrypted ->
  present (req_messageId req) = Some messageId ->
  pool_has messageId (messagePool srv) = false ->
  some_write_succeeds recipient srv = false ->
  messagePool (fst (handleMessage now req srv)) =
    messagePool srv ++
      [(messageId, stored_message now req recipient encrypted messageId)].
Proof.
  intros Hr He Hi Hnew Hnone.
  destruct (handleMessage_accepted now req srv _ _ _ Hr He Hi) as [_ Hpool].
  rewrite Hpool, Hnone. clear Hpool. unfold pool_set, pool_has in *.
  induction (messagePool srv) as [|[k v] rest IH]; cbn in *; [reflexivity|].
  destruct (strict_eq messageId k); [discriminate|]. now rewrite IH.
Qed.

(** ** The envelope sweep *)

(** The test of the sweep, [now - timestamp > ttl], read on the expiry
    instant: it lies strictly before [now]. *)
Lemma expired_past_expiry now e : expired now (snd e) = past_expiry now e.
Proof.
  unfold expired, past_expiry.
  destruct (Z.gtb_spec (now - timestamp (snd e)) (ttl (snd e)));
    destruct (Z.ltb_spec (timestamp (snd e) + ttl (snd e)) now);
    try reflexivity; lia.
Qed.

Lemma cleanupExpiredMessages_loop_spec now entries :
  forall pool cleaned,
    cleanupExpiredMessages_loop now entries pool cleaned =
    (JsMap.delete_all strict_eq
       (JsMap.keys (filter (past_expiry now) entries)) pool,
     (cleaned + List.length (filter (past_expiry now) entries))%nat).
Proof.
  induction entries as [|[messageId msg] rest IH]; intros pool cleaned;
    cbn [cleanupExpiredMessages_loop filter].
  - cbn. now rewrite Nat.add_0_r.
  - rewrite <- (expired_past_expiry now (messageId, msg)). cbn [snd].
    destruct (expired now msg).
    + rewrite IH. cbn [map JsMap.keys fst List.length].
      now rewrite Nat.add_succ_r.
    + apply IH.
Qed.

(** C7, as the code has it: a sweep at [instant] removes exactly the
    envelopes whose expiry instant [created_at + ttl] lies strictly before
    [instant] and keeps every other one, so an envelope whose expiry instant
    equals [instant] stays; the number removed is logged when it is positive
    and is not returned. *)
Theorem C7_sweep_removes_strictly_expired instant srv :
  NoDup (JsMap.keys (messagePool srv)) ->
  let removed :=
    List.length
      (filter (fun e => timestamp (snd e) + ttl (snd e) <? instant) (messagePool srv)) in
  cleanupExpiredMessages instant srv =
    (with_messagePool
       (filter (fun e => negb (timestamp (snd e) + ttl (snd e) <? instant))
          (messagePool srv)) srv,
     if (0 <? removed)%nat then [cleaned_expired_messages removed] else []).
Proof.
  intros Hnd removed. unfold cleanupExpiredMessages.
  rewrite cleanupExpiredMessages_loop_spec.
  rewrite (JsMapFacts.delete_all_selected strict_eq strict_eq_eq _ _ Hnd).
  reflexivity.
Qed.

Lemma C7_sweep_removes_strictly_expired_witness :
  NoDup (JsMap.keys (messagePool three_pooled)) /\
  JsMap.keys (messagePool (fst (cleanupExpiredMessages 1011 three_pooled))) =
    [JStr "m2"; JStr "m3"] /\
  snd (cleanupExpiredMessages 1011 three_pooled) = [cleaned_expired_messages 1].
Proof.
  assert (NoDup (JsMap.keys (messagePool three_pooled))) as Hnd.
  { vm_compute. repeat constructor; cbn; intuition discriminate. }
  split; [exact Hnd|].
  rewrite (C7_sweep_removes_strictly_expired 1011 three_pooled Hnd).
  split; reflexivity.
Defined.

(** C7 as stated fails: [m1] was created at 10 with a ttl of 1000, so its
    expiry instant is 1010; the sweep at 1010 removes nothing and logs
    nothing, and [m1] is still pooled. *)
Lemma C7_envelope_at_expiry_instant_survives :
  option_map (fun m => timestamp m + ttl m) (pool_get (JStr "m1") (messagePool one_pooled))
    = Some 1010 /\
  cleanupExpiredMessages 1010 one_pooled = (one_pooled, []) /\
  pool_has (JStr "m1") (messagePool (fst (cleanupExpiredMessages 1010 one_pooled))) = true.
Proof. vm_compute. repeat split. Qed.

(** ** Pull does not look at the clock *)

(** C10: an envelope addressed to the recipient is returned by a pull and
    removed from the pool also when its expiry instant lies before the
    current time and the sweep, run at that time, would have removed it:
    [getMessages] takes no clock reading. *)
Theorem C10_pull_returns_expired now code srv k m :
  In (k, m) (messagePool srv) ->
  recipientContactCode m = JStr code ->
  timestamp m + ttl m < now ->
  In (as_pulled (k, m)) (pulled_messages (snd (getMessages code srv))) /\
  pool_get k (messagePool (fst (getMessages code srv))) = None /\
  pool_get k (messagePool (fst (cleanupExpiredMessages now srv))) = None.
Proof.
  intros Hin Hrec Hpast.
  assert (for_recipient code (k, m) = true) as Hfor.
  { unfold for_recipient. cbn [snd]. rewrite Hrec. now apply strict_eq_eq. }
  assert (past_expiry now (k, m) = true) as Hexp.
  { unfold past_expiry. cbn [snd]. now apply Z.ltb_lt. }
  rewrite getMessages_spec. cbn [fst snd pulled_messages body json messagePool with_messagePool].
  split; [|split].
  - apply in_map. apply filter_In. now split.
  - apply (JsMapFacts.get_None_has strict_eq).
    apply (JsMapFacts.has_delete_all strict_eq strict_eq_eq).
    change k with (fst (k, m)). apply in_map. apply filter_In. now split.
  - unfold cleanupExpiredMessages. rewrite cleanupExpiredMessages_loop_spec.
    cbn [fst messagePool with_messagePool].
    apply (JsMapFacts.get_None_has strict_eq).
    apply (JsMapFacts.has_delete_all strict_eq strict_eq_eq).
    change k with (fst (k, m)). apply in_map. apply filter_In. now split.
Qed.

Lemma C10_pull_returns_expired_witness :
  let m := stored_message 10 (publish "m1" "R" "X" (Some 1000))
             (JStr "R") (JStr "X") (JStr "m1") in
  (In (JStr "m1", m) (messagePool one_pooled) /\
   recipientContactCode m = JStr "R" /\
   timestamp m + ttl m < 5000) /\
  In {| pulled_id := JStr "m1"; pulled_encryptedMessage := JStr "X";
        pulled_timestamp := 10 |}
     (pulled_messages (snd (getMessages "R" one_pooled))) /\
  pool_get (JStr "m1") (messagePool (fst (getMessages "R" one_pooled))) = None.
Proof.
  intros m.
  assert (In (JStr "m1", m) (messagePool one_pooled)) as Hin by (left; reflexivity).
  assert (timestamp m + ttl m < 5000) as Hpast by (cbn; lia).
  split; [split; [exact Hin | split; [reflexivity | exact Hpast]]|].
  destruct (C10_pull_returns_expired 5000 "R" one_pooled (JStr "m1") m
              Hin eq_refl Hpast) as [H1 [H2 _]].
  split; [exact H1 | exact H2].
Defined.

(** ** Delete *)

(** C9: deleting an identifier that is pooled removes it and answers [true];
    deleting it again right after answers [false] and leaves the server as
    the first delete left it. *)
Theorem C9_delete_idempotent messageId srv :
  pool_has (JStr messageId) (messagePool srv) = true ->
  let first := deleteMessage messageId srv in
  let second := deleteMessage messageId (fst first) in
  snd first = json (delete_body true) /\
  pool_get (JStr messageId) (messagePool (fst first)) = None /\
  snd second = json (delete_body false) /\
  fst second = fst first.
Proof.
  intros Hhas first second. unfold second, first, deleteMessage.
  cbn [fst snd messagePool with_messagePool]. rewrite Hhas.
  unfold pool_has, pool_get, pool_delete.
  rewrite (JsMapFacts.has_delete strict_eq).
  rewrite (JsMapFacts.get_delete_same strict_eq).
  rewrite (JsMapFacts.delete_absent strict_eq _ _ (JsMapFacts.has_delete strict_eq _ _)).
  repeat split.
Qed.

Lemma C9_delete_idempotent_witness :
  pool_has (JStr "m1") (messagePool one_pooled) = true /\
  snd (deleteMessage "m1" one_pooled) = json (delete_body true) /\
  snd (deleteMessage "m1" (fst (deleteMessage "m1" one_pooled))) =
    json (delete_body false).
Proof.
  split; [reflexivity|].
  destruct (C9_delete_idempotent "m1" one_pooled eq_refl) as [H1 [_ [H3 _]]].
  split; [exact H1 | exact H3].
Defined.

(** ** Sessions and their [lastSeen] *)

Lemma send_to_userSessions wsid f srv :
  userSessions (fst (send_to wsid f srv)) = userSessions srv.
Proof. unfold send_to. now destruct (ws_send wsid f (sockets srv)). Qed.

Lemma broadcastStatusUpdate_loop_userSessions text clients :
  forall srv,
    userSessions (broadcastStatusUpdate_loop text clients srv) = userSessions srv.
Proof.
  induction clients as [|[wsid client] rest IH]; intros srv;
    cbn [broadcastStatusUpdate_loop]; [reflexivity|].
  destruct (is_open client); [|apply IH].
  destruct (ws_send wsid _ (sockets srv)); [|apply IH].
  now rewrite IH.
Qed.



(** A [register_user] frame with a contact code that is a non-empty string
    enters (or replaces) the session of its socket, with [lastSeen] set to
    the current time. *)
Lemma handleWebSocketMessage_register now wsid m code srv :
  type_is m "register_user" = true ->
  present (msg_contactCode m) = Some (JStr code) ->
  session_get wsid (userSessions (handleWebSocketMessage now wsid (parsed m) srv)) =
    Some {| ws := wsid; contactCode := code; lastSeen := now; status := "online" |}.
Proof.
  intros Ht Hc. unfold handleWebSocketMessage, dispatch. rewrite Ht.
  unfold registerUser. rewrite Hc.
  set (srv1 := with_userSessions _ srv).
  pose proof (send_to_userSessions wsid (registration_success wsid) srv1) as H1.
  destruct (send_to wsid (registration_success wsid) srv1) as [srv2 out].
  cbn [fst] in H1.
  assert (session_get wsid (userSessions srv2) =
          Some {| ws := wsid; contactCode := code; lastSeen := now; status := "online" |})
    as Hget.
  { rewrite H1. apply (JsMapFacts.get_set_same String.eqb String.eqb_eq). }
  destruct out; [exact Hget|]. now rewrite send_to_userSessions.
Qed.

Lemma cleanupInactiveSessions_loop_spec now entries :
  forall srv cleaned,
    let out := cleanupInactiveSessions_loop now entries srv cleaned in
    userSessions (fst out) =
      JsMap.delete_all String.eqb
        (JsMap.keys (filter (fun e => inactive now (snd e)) entries))
        (userSessions srv) /\
    messagePool (fst out) = messagePool srv /\
    snd out =
      (cleaned + List.length (filter (fun e => inactive now (snd e)) entries))%nat.
Proof.
  induction entries as [|[sid s] rest IH]; intros srv cleaned;
    cbn [cleanupInactiveSessions_loop filter snd].
  - cbn. now rewrite Nat.add_0_r.
  - destruct (inactive now s).
    + cbv zeta. cbv zeta in IH.
      match goal with
      | |- context [cleanupInactiveSessions_loop now rest ?s1 ?c] =>
          destruct (IH s1 c) as [H1 [H2 H3]]
      end.
      rewrite H1, H2, H3. cbn [List.length map JsMap.keys fst].
      rewrite Nat.add_succ_r. repeat split.
    + apply IH.
Qed.



(** ** The handlers keep the state well formed *)

Lemma wf_emptyServer : wf emptyServer.
Proof. repeat split; constructor. Qed.

Lemma wf_with_messagePool p srv :
  NoDup (JsMap.keys p) -> wf srv -> wf (with_messagePool p srv).
Proof. intros Hp [_ [Hu [Hs Hn]]]. repeat split; assumption. Qed.

Lemma wf_with_userSessions u srv :
  NoDup (JsMap.keys u) -> wf srv -> wf (with_userSessions u srv).
Proof. intros Hu' [Hp [_ [Hs Hn]]]. repeat split; assumption. Qed.

Lemma wf_with_sockets s srv :
  NoDup (JsMap.keys s) -> wf srv -> wf (with_sockets s srv).
Proof. intros Hs' [Hp [Hu [_ Hn]]]. repeat split; assumption. Qed.

Lemma wf_with_replications r srv : wf srv -> wf (with_replications r srv).
Proof. intros [Hp [Hu [Hs Hn]]]. repeat split; assumption. Qed.

Lemma wf_pool_set k v srv :
  wf srv -> wf (with_messagePool (pool_set k v (messagePool srv)) srv).
Proof.
  intros H. apply wf_with_messagePool; [|exact H].
  apply (JsMapFacts.NoDup_set strict_eq strict_eq_eq). apply H.
Qed.

Lemma wf_pool_delete k srv :
  wf srv -> wf (with_messagePool (pool_delete k (messagePool srv)) srv).
Proof.
  intros H. apply wf_with_messagePool; [|exact H].
  apply (JsMapFacts.NoDup_delete strict_eq). apply H.
Qed.

Lemma wf_session_delete k srv :
  wf srv -> wf (with_userSessions (session_delete k (userSessions srv)) srv).
Proof.
  intros H. apply wf_with_userSessions; [|exact H].
  apply (JsMapFacts.NoDup_delete String.eqb). apply H.
Qed.

Lemma wf_session_set k v srv :
  wf srv -> wf (with_userSessions (session_set k v (userSessions srv)) srv).
Proof.
  intros H. apply wf_with_userSessions; [|exact H].
  apply (JsMapFacts.NoDup_set String.eqb String.eqb_eq). apply H.
Qed.

Lemma wf_ws_send wsid f srv socks :
  ws_send wsid f (sockets srv) = Some socks -> wf srv -> wf (with_sockets socks srv).
Proof.
  unfold ws_send. intros Hsend H.
  destruct (socket_get wsid (sockets srv)) as [sock|]; [|discriminate].
  destruct (sendThrows sock); [discriminate|]. injection Hsend as <-.
  apply wf_with_sockets; [|exact H].
  apply (JsMapFacts.NoDup_set String.eqb String.eqb_eq). apply H.
Qed.

Lemma wf_ws_close wsid srv :
  wf srv -> wf (with_sockets (ws_close wsid (sockets srv)) srv).
Proof.
  intros H. apply wf_with_sockets; [|exact H]. unfold ws_close.
  destruct (socket_get wsid (sockets srv)); [|apply H].
  apply (JsMapFacts.NoDup_set String.eqb String.eqb_eq). apply H.
Qed.

Lemma wf_send_to wsid f srv : wf srv -> wf (fst (send_to wsid f srv)).
Proof.
  intros H. unfold send_to.
  destruct (ws_send wsid f (sockets srv)) eqn:E; [|exact H].
  now apply (wf_ws_send wsid f).
Qed.

Lemma wf_attemptDirectDelivery msg srv :
  wf srv -> wf (fst (attemptDirectDelivery msg srv)).
Proof.
  unfold attemptDirectDelivery. generalize (userSessions srv) as entries.
  intros entries. revert srv.
  induction entries as [|[sid s] rest IH]; intros srv H;
    cbn [attemptDirectDelivery_loop]; [exact H|].
  destruct (strict_eq _ _); [|now apply IH].
  destruct (ws_send (ws s) _ (sockets srv)) eqn:E.
  - now apply (wf_ws_send _ _ _ _ E).
  - apply IH. now apply wf_session_delete.
Qed.

Lemma wf_handleMessage now req srv :
  wf srv -> wf (fst (handleMessage now req srv)).
Proof.
  intros H. unfold handleMessage.
  destruct (present (req_recipientContactCode req)) as [recipient|]; [|exact H].
  destruct (present (req_encryptedMessage req)) as [encrypted|]; [|exact H].
  destruct (present (req_messageId req)) as [messageId|]; [|exact H].
  match goal with
  | |- context [attemptDirectDelivery ?m ?s] =>
      pose proof (wf_attemptDirectDelivery m s (wf_pool_set _ _ _ H)) as H2;
      destruct (attemptDirectDelivery m s) as [srv2 delivered]
  end.
  cbn [fst] in *. unfold replicateToNodes. apply wf_with_replications.
  destruct delivered; [now apply wf_pool_delete | exact H2].
Qed.

Lemma NoDup_delete_all {K V} (eqb : K -> K -> bool) ks (m : list (K * V)) :
  NoDup (JsMap.keys m) -> NoDup (JsMap.keys (JsMap.delete_all eqb ks m)).
Proof.
  unfold JsMap.delete_all. revert m.
  induction ks as [|k ks IH]; intros m H; cbn [fold_left]; [exact H|].
  apply IH. now apply JsMapFacts.NoDup_delete.
Qed.

Lemma wf_getMessages code srv : wf srv -> wf (fst (getMessages code srv)).
Proof.
  intros H. rewrite getMessages_spec. cbn [fst].
  apply wf_with_messagePool; [|exact H]. apply NoDup_delete_all, H.
Qed.

Lemma wf_deleteMessage messageId srv :
  wf srv -> wf (fst (deleteMessage messageId srv)).
Proof. intros H. now apply wf_pool_delete. Qed.

Lemma wf_cleanupExpiredMessages now srv :
  wf srv -> wf (fst (cleanupExpiredMessages now srv)).
Proof.
  intros H. unfold cleanupExpiredMessages.
  rewrite cleanupExpiredMessages_loop_spec. cbn [fst].
  apply wf_with_messagePool; [|exact H]. apply NoDup_delete_all, H.
Qed.

Lemma wf_cleanupInactiveSessions now srv :
  wf srv -> wf (fst (cleanupInactiveSessions now srv)).
Proof.
  unfold cleanupInactiveSessions.
  assert (forall entries s c, wf s ->
            wf (fst (cleanupInactiveSessions_loop now entries s c))) as Hloop.
  { induction entries as [|[sid s0] rest IH]; intros s c H;
      cbn [cleanupInactiveSessions_loop]; [exact H|].
    destruct (inactive now s0); [|now apply IH].
    apply IH. apply wf_session_delete. now apply wf_ws_close. }
  intros H. specialize (Hloop (userSessions srv) srv 0%nat H).
  now destruct (cleanupInactiveSessions_loop now (userSessions srv) srv 0%nat).
Qed.

Lemma wf_registerNode now req srv :
  wf srv -> wf (fst (registerNode now req srv)).
Proof.
  intros H. unfold registerNode.
  destruct (present (req_nodeUrl req)) as [url|] eqn:Hu; [|exact H].
  destruct (present (req_publicKey req)) as [key|] eqn:Hk; [|exact H].
  destruct H as [Hp [Hs [Hk' Hn]]]. cbn [fst]. repeat split; try assumption.
  cbn [serverNodes nextAddr]. rewrite (set_add_fresh _ _ _ Hn).
  apply Forall_app. split.
  - eapply Forall_impl; [|exact Hn]. cbn beta. intros e He. lia.
  - repeat constructor.
Qed.

Lemma wf_onConnection sessionId throws srv :
  wf srv -> wf (onConnection sessionId throws srv).
Proof.
  intros H. apply wf_with_sockets; [|exact H].
  apply (JsMapFacts.NoDup_set String.eqb String.eqb_eq). apply H.
Qed.

Lemma wf_ws_closed wsid srv :
  wf srv -> wf (with_sockets (ws_closed wsid (sockets srv)) srv).
Proof.
  intros H. apply wf_with_sockets; [|exact H]. unfold ws_closed.
  destruct (socket_get wsid (sockets srv)); [|apply H].
  apply (JsMapFacts.NoDup_set String.eqb String.eqb_eq). apply H.
Qed.

Lemma wf_onClose sessionId srv : wf srv -> wf (onClose sessionId srv).
Proof.
  intros H. unfold onClose.
  apply (wf_session_delete sessionId (with_sockets _ srv)).
  now apply wf_ws_closed.
Qed.

Lemma wf_forwardRealTimeMessage m srv :
  wf srv -> wf (forwardRealTimeMessage m srv).
Proof.
  unfold forwardRealTimeMessage. generalize (userSessions srv) as entries.
  intros entries. revert srv.
  induction entries as [|[sid s] rest IH]; intros srv H;
    cbn [forwardRealTimeMessage_loop]; [exact H|].
  destruct (addressed_to _ s); [|now apply IH].
  destruct (ws_send (ws s) _ (sockets srv)) eqn:E.
  - apply IH. now apply (wf_ws_send _ _ _ _ E).
  - apply IH. now apply wf_session_delete.
Qed.

Lemma wf_broadcastStatusUpdate m srv :
  wf srv -> wf (broadcastStatusUpdate m srv).
Proof.
  unfold broadcastStatusUpdate. generalize (sockets srv) at 1 as clients.
  intros clients. revert srv.
  induction clients as [|[wsid client] rest IH]; intros srv H;
    cbn [broadcastStatusUpdate_loop]; [exact H|].
  destruct (is_open client); [|now apply IH].
  destruct (ws_send wsid _ (sockets srv)) eqn:E; [|now apply IH].
  apply IH. now apply (wf_ws_send _ _ _ _ E).
Qed.

Lemma wf_handleWebSocketMessage now wsid data srv :
  wf srv -> wf (handleWebSocketMessage now wsid data srv).
Proof.
  intros H. unfold handleWebSocketMessage.
  assert (forall s o, wf s ->
            wf (match o with
                | Returned => s
                | Threw => fst (send_to wsid (error_frame "Invalid message format") s)
                end)) as Hcatch.
  { intros s [] Hs; [exact Hs | now apply wf_send_to]. }
  destruct data as [|m]; [now apply wf_send_to|].
  assert (wf (fst (dispatch now wsid m srv))) as Hd.
  { unfold dispatch.
    destruct (type_is m "register_user").
    { unfold registerUser.
      destruct (present (msg_contactCode m)) as [[| | |c|]|];
        try now apply wf_send_to.
      apply wf_send_to. now apply wf_session_set. }
    destruct (type_is m "status_update"); [now apply wf_broadcastStatusUpdate|].
    destruct (type_is m "real_time_message"); [now apply wf_forwardRealTimeMessage|].
    now apply wf_send_to. }
  destruct (dispatch now wsid m srv) as [srv1 out]. now apply Hcatch.
Qed.

(** Every state the server goes through is well formed; in particular the
    keys of [messagePool] and of [userSessions] are distinct there. *)
Lemma reachable_wf srv : reachable srv -> wf srv.
Proof.
  induction 1.
  - apply wf_emptyServer.
  - now apply wf_onConnection.
  - now apply wf_onClose.
  - now apply wf_handleWebSocketMessage.
  - now apply wf_handleMessage.
  - now apply wf_getMessages.
  - now apply wf_deleteMessage.
  - now apply wf_registerNode.
  - now apply wf_cleanupExpiredMessages.
  - now apply wf_cleanupInactiveSessions.
Qed.

Lemma reachable_pool_keys srv :
  reachable srv -> NoDup (JsMap.keys (messagePool srv)).
Proof. intros H. apply (reachable_wf srv H). Qed.

Lemma reachable_session_keys srv :
  reachable srv -> NoDup (JsMap.keys (userSessions srv)).
Proof. intros H. apply (reachable_wf srv H). Qed.

(** In every state the server goes through, two accepted registrations in a
    row, with the same body or not, leave two more entries in the node
    set. *)
Lemma registerNode_twice_adds_two now1 now2 req srv url key :
  reachable srv ->
  present (req_nodeUrl req) = Some url ->
  present (req_publicKey req) = Some key ->
  List.length
    (serverNodes (fst (registerNode now2 req (fst (registerNode now1 req srv))))) =
  S (S (List.length (serverNodes srv))).
Proof.
  intros Hreach Hu Hk.
  destruct (registerNode_always_adds now1 req srv url key Hu Hk) as [H1 [_ Hfresh]];
    [apply (reachable_wf srv Hreach)|].
  destruct (registerNode_always_adds now2 req _ url key Hu Hk Hfresh) as [H2 _].
  now rewrite H2, H1.
Qed.

(** * Further properties of the handlers *)

(** ** The node registry *)

(** X1: a registration whose node url or public key is missing or falsy is
    answered 400 [Missing node URL or public key] and leaves the server as
    it was: no node is added. *)
Theorem X1_registerNode_missing_field_rejected now req srv :
  present (req_nodeUrl req) = None \/ present (req_publicKey req) = None ->
  registerNode now req srv =
    (srv, {| status_code := 400;
             body := error_body "Missing node URL or public key" |}).
Proof.
  unfold registerNode. intros [H | H]; rewrite H; [reflexivity|].
  now destruct (present (req_nodeUrl req)).
Qed.

Lemma X1_registerNode_missing_field_rejected_witness :
  let req := {| req_nodeUrl := Some (JStr "https://peer.example");
                req_publicKey := Some (JStr "") |} in
  present (req_publicKey req) = None /\
  registerNode 7 req two_devices =
    (two_devices,
     {| status_code := 400; body := error_body "Missing node URL or public key" |}).
Proof.
  intros req. split; [reflexivity|].
  apply (X1_registerNode_missing_field_rejected 7 req two_devices).
  right. reflexivity.
Defined.

(** X2: after an accepted registration the node list shows what it showed
    before, followed by the new node with its url and the time of the
    registration as [lastSeen]; the answer counts the nodes now
    registered.  Public keys are not part of the list. *)
Theorem X2_getNodes_after_registerNode now req srv url key :
  wf srv ->
  present (req_nodeUrl req) = Some url ->
  present (req_publicKey req) = Some key ->
  getNodes (fst (registerNode now req srv)) =
    getNodes srv ++ [{| view_nodeUrl := url; view_lastSeen := now |}] /\
  snd (registerNode now req srv) =
    json (register_node_body true (S (List.length (getNodes srv)))).
Proof.
  intros [_ [_ [_ Hfresh]]] Hu Hk. unfold registerNode. rewrite Hu, Hk.
  cbn [fst snd]. unfold getNodes. cbn [serverNodes].
  rewrite (set_add_fresh _ _ _ Hfresh), map_app, length_app, length_map.
  cbn [map List.length snd nodeUrl node_lastSeen].
  now rewrite Nat.add_1_r.
Qed.

Lemma X2_getNodes_after_registerNode_witness :
  (wf emptyServer /\
   present (req_nodeUrl node_request) = Some (JStr "https://peer.example") /\
   present (req_publicKey node_request) = Some (JStr "key")) /\
  getNodes (fst (registerNode 7 node_request emptyServer)) =
    [{| view_nodeUrl := JStr "https://peer.example"; view_lastSeen := 7 |}].
Proof.
  split; [split; [apply wf_emptyServer | split; reflexivity]|].
  apply (X2_getNodes_after_registerNode 7 node_request emptyServer
           (JStr "https://peer.example") (JStr "key") wf_emptyServer
           eq_refl eq_refl).
Defined.

(** ** Counting the pool *)

Lemma handleMessage_frame now req srv recipient encrypted messageId :
  present (req_recipientContactCode req) = Some recipient ->
  present (req_encryptedMessage req) = Some encrypted ->
  present (req_messageId req) = Some messageId ->
  let msg := stored_message now req recipient encrypted messageId in
  let srv' := fst (handleMessage now req srv) in
  serverNodes srv' = serverNodes srv /\
  nextAddr srv' = nextAddr srv /\
  replications srv' =
    replications srv ++ map (fun n => (nodeUrl (snd n), msg)) (serverNodes srv) /\
  userSessions srv' =
    userSessions
      (fst (attemptDirectDelivery msg
              (with_messagePool (pool_set messageId msg (messagePool srv)) srv))).
Proof.
  intros Hr He Hi msg srv'. unfold srv', handleMessage.
  rewrite Hr, He, Hi. fold msg.
  set (srv1 := with_messagePool (pool_set messageId msg (messagePool srv)) srv).
  destruct (attemptDirectDelivery_loop_frame msg (userSessions srv1) srv1)
    as [_ [Hn [Ha Hrep]]].
  fold (attemptDirectDelivery msg srv1) in Hn, Ha, Hrep.
  destruct (attemptDirectDelivery msg srv1) as [srv2 d]. cbn [fst] in *.
  destruct d; cbn; rewrite ?Hn, ?Ha, ?Hrep; repeat split.
Qed.

Lemma pool_set_fresh k v pool :
  pool_has k pool = false -> pool_set k v pool = pool ++ [(k, v)].
Proof.
  unfold pool_set, pool_has.
  induction pool as [|[k' v'] rest IH]; cbn; [reflexivity|].
  destruct (strict_eq k k'); [discriminate|]. intros H. now rewrite IH.
Qed.

(** X3: after a publish with its three required fields and an identifier
    that is not in the pool, the pool size that [/health] reports has grown
    by one when no write went through and is what it was when the message
    was pushed; the node count is the same in both cases. *)
Theorem X3_health_pool_size_after_publish
    now later req srv recipient encrypted messageId :
  present (req_recipientContactCode req) = Some recipient ->
  present (req_encryptedMessage req) = Some encrypted ->
  present (req_messageId req) = Some messageId ->
  pool_has messageId (messagePool srv) = false ->
  let before := health now srv in
  let after := health later (fst (handleMessage now req srv)) in
  messagePoolSize after =
    (if some_write_succeeds recipient srv
     then messagePoolSize before
     else S (messagePoolSize before)) /\
  connectedNodes after = connectedNodes before.
Proof.
  intros Hr He Hi Hnew before after. unfold after, before, health.
  cbn [messagePoolSize connectedNodes].
  destruct (handleMessage_accepted now req srv _ _ _ Hr He Hi) as [_ Hpool].
  destruct (handleMessage_frame now req srv _ _ _ Hr He Hi) as [Hn _].
  cbv zeta in Hpool, Hn. rewrite Hpool, Hn. split; [|reflexivity].
  set (msg := stored_message now req recipient encrypted messageId).
  rewrite (pool_set_fresh _ msg _ Hnew). destruct (some_write_succeeds recipient srv).
  - unfold pool_delete, JsMap.delete. rewrite filter_app. cbn [filter fst].
    rewrite (proj2 (strict_eq_eq messageId messageId) eq_refl). cbn [negb].
    rewrite app_nil_r.
    fold (JsMap.delete strict_eq messageId (messagePool srv)).
    now rewrite (JsMapFacts.delete_absent strict_eq _ _ Hnew).
  - unfold JsMap.size. rewrite length_app. cbn [List.length]. lia.
Qed.

Lemma X3_health_pool_size_after_publish_witness :
  let req := publish "m2" "Q" "Y" None in
  (present (req_recipientContactCode req) = Some (JStr "Q") /\
   present (req_encryptedMessage req) = Some (JStr "Y") /\
   present (req_messageId req) = Some (JStr "m2") /\
   pool_has (JStr "m2") (messagePool one_pooled) = false) /\
  messagePoolSize (health 25 (fst (handleMessage 20 req one_pooled))) = 2%nat.
Proof.
  intros req. split; [repeat split|].
  destruct (X3_health_pool_size_after_publish 20 25 req one_pooled
              (JStr "Q") (JStr "Y") (JStr "m2") eq_refl eq_refl eq_refl eq_refl)
    as [H _].
  exact H.
Defined.

(** ** Replication *)

(** X4: an accepted publish issues one replication request per registered
    node, in the order of registration, each carrying the stored message,
    whether the message was pushed or pooled; the node set itself is not
    touched. *)
Theorem X4_publish_replicates_to_every_node
    now req srv recipient encrypted messageId :
  present (req_recipientContactCode req) = Some recipient ->
  present (req_encryptedMessage req) = Some encrypted ->
  present (req_messageId req) = Some messageId ->
  let srv' := fst (handleMessage now req srv) in
  replications srv' =
    replications srv ++
      map (fun v => (view_nodeUrl v,
                     stored_message now req recipient encrypted messageId))
        (getNodes srv) /\
  getNodes srv' = getNodes srv.
Proof.
  intros Hr He Hi srv'.
  destruct (handleMessage_frame now req srv _ _ _ Hr He Hi) as [Hn [_ [Hrep _]]].
  cbv zeta in Hn, Hrep. fold srv' in Hn, Hrep.
  unfold getNodes. rewrite Hrep, Hn, map_map. split; reflexivity.
Qed.

Lemma X4_publish_replicates_to_every_node_witness :
  let srv := fst (registerNode 1 node_request two_devices) in
  let req := publish "m4" "R" "X" None in
  (present (req_recipientContactCode req) = Some (JStr "R") /\
   present (req_encryptedMessage req) = Some (JStr "X") /\
   present (req_messageId req) = Some (JStr "m4")) /\
  replications (fst (handleMessage 20 req srv)) =
    [(JStr "https://peer.example",
      stored_message 20 req (JStr "R") (JStr "X") (JStr "m4"))].
Proof.
  intros srv req. split; [repeat split|].
  destruct (X4_publish_replicates_to_every_node 20 req srv
              (JStr "R") (JStr "X") (JStr "m4") eq_refl eq_refl eq_refl)
    as [H _].
  exact H.
Defined.

(** ** Delete, off the happy path *)

Lemma with_messagePool_same srv : with_messagePool (messagePool srv) srv = srv.
Proof. now destruct srv. Qed.

(** X5: deleting an identifier that is not pooled answers [false] and leaves
    the server exactly as it was. *)
Theorem X5_delete_unknown_id messageId srv :
  pool_has (JStr messageId) (messagePool srv) = false ->
  deleteMessage messageId srv = (srv, json (delete_body false)).
Proof.
  intros H. unfold deleteMessage. rewrite H. unfold pool_delete, pool_has in *.
  now rewrite (JsMapFacts.delete_absent strict_eq _ _ H), with_messagePool_same.
Qed.

Lemma X5_delete_unknown_id_witness :
  pool_has (JStr "m7") (messagePool three_pooled) = false /\
  deleteMessage "m7" three_pooled = (three_pooled, json (delete_body false)).
Proof.
  split; [reflexivity|].
  apply (X5_delete_unknown_id "m7" three_pooled). reflexivity.
Defined.

(** X6: a delete touches one identifier only: every entry stored under
    another key stays as it was.  The identifier of the request is a
    string, so an entry published under a number, a boolean or an object
    can never be deleted through this endpoint. *)
Theorem X6_delete_leaves_other_ids messageId srv k :
  k <> JStr messageId ->
  pool_get k (messagePool (fst (deleteMessage messageId srv))) =
    pool_get k (messagePool srv).
Proof.
  intros Hne. cbn [deleteMessage fst messagePool with_messagePool].
  now apply (JsMapFacts.get_delete_other strict_eq strict_eq_eq).
Qed.

Lemma X6_delete_leaves_other_ids_witness :
  let req := {| req_recipientContactCode := Some (JStr "R");
                req_encryptedMessage := Some (JStr "X");
                req_messageId := Some (JNum 5);
                req_ttl := None |} in
  let srv := fst (handleMessage 10 req emptyServer) in
  JNum 5 <> JStr "5" /\
  pool_get (JNum 5) (messagePool (fst (deleteMessage "5" srv))) =
    Some (stored_message 10 req (JStr "R") (JStr "X") (JNum 5)).
Proof.
  intros req srv. split; [discriminate|].
  rewrite (X6_delete_leaves_other_ids "5" srv (JNum 5)); [reflexivity|].
  discriminate.
Defined.

(** ** Publish, then pull or sweep *)

(** X7: a publish for the recipient code [code] that no socket takes, under
    an identifier not yet pooled, shows up in the next pull for [code] as
    the last message, with the identifier and payload as published and the
    time of the publish as timestamp, after everything that pull would have
    returned before. *)
Theorem X7_publish_then_pull now req srv code encrypted messageId :
  present (req_recipientContactCode req) = Some (JStr code) ->
  present (req_encryptedMessage req) = Some encrypted ->
  present (req_messageId req) = Some messageId ->
  pool_has messageId (messagePool srv) = false ->
  some_write_succeeds (JStr code) srv = false ->
  pulled_messages (snd (getMessages code (fst (handleMessage now req srv)))) =
    pulled_messages (snd (getMessages code srv)) ++
      [{| pulled_id := messageId;
          pulled_encryptedMessage := encrypted;
          pulled_timestamp := now |}].
Proof.
  intros Hr He Hi Hnew Hnone. rewrite !getMessages_spec.
  cbn [snd pulled_messages body json].
  rewrite (handleMessage_pools_at_end now req srv _ _ _ Hr He Hi Hnew Hnone).
  rewrite filter_app, map_app. f_equal. cbn [filter].
  unfold for_recipient at 1. cbn [snd stored_message recipientContactCode].
  now rewrite (proj2 (strict_eq_eq (JStr code) (JStr code)) eq_refl).
Qed.

Lemma X7_publish_then_pull_witness :
  let req := publish "m9" "R" "W" None in
  (present (req_recipientContactCode req) = Some (JStr "R") /\
   present (req_encryptedMessage req) = Some (JStr "W") /\
   present (req_messageId req) = Some (JStr "m9") /\
   pool_has (JStr "m9") (messagePool three_pooled) = false /\
   some_write_succeeds (JStr "R") three_pooled = false) /\
  map pulled_id
    (pulled_messages (snd (getMessages "R" (fst (handleMessage 40 req three_pooled))))) =
    [JStr "m1"; JStr "m3"; JStr "m9"].
Proof.
  intros req. split; [repeat split|].
  rewrite (X7_publish_then_pull 40 req three_pooled "R" (JStr "W") (JStr "m9")
             eq_refl eq_refl eq_refl eq_refl eq_refl).
  reflexivity.
Defined.

(** X8: a message that was pushed is never returned by a later pull, for
    whatever recipient code: the push removes the identifier from the pool,
    an earlier pooled entry under the same identifier included. *)
Theorem X8_pushed_message_not_pulled
    now req srv recipient encrypted messageId code x :
  present (req_recipientContactCode req) = Some recipient ->
  present (req_encryptedMessage req) = Some encrypted ->
  present (req_messageId req) = Some messageId ->
  some_write_succeeds recipient srv = true ->
  In x (pulled_messages (snd (getMessages code (fst (handleMessage now req srv))))) ->
  pulled_id x <> messageId.
Proof.
  intros Hr He Hi Hsome.
  destruct (handleMessage_accepted now req srv _ _ _ Hr He Hi) as [_ Hpool].
  cbv zeta in Hpool. rewrite Hsome in Hpool.
  rewrite getMessages_spec. cbn [snd pulled_messages body json].
  rewrite Hpool. intros Hin Heq.
  apply in_map_iff in Hin as [e [Hx Hin]]. apply filter_In in Hin as [Hin _].
  subst x. cbn [as_pulled pulled_id] in Heq.
  assert (JsMap.has strict_eq (fst e)
            (pool_delete messageId
               (pool_set messageId
                  (stored_message now req recipient encrypted messageId)
                  (messagePool srv))) = true) as Hhas.
  { apply (JsMapFacts.has_In strict_eq strict_eq_eq).
    unfold JsMap.keys. now apply in_map. }
  rewrite Heq in Hhas. unfold pool_delete in Hhas.
  rewrite (JsMapFacts.has_delete strict_eq) in Hhas. discriminate.
Qed.

Lemma X8_pushed_message_not_pulled_witness :
  let req := publish "m4" "R" "X" None in
  (present (req_recipientContactCode req) = Some (JStr "R") /\
   present (req_encryptedMessage req) = Some (JStr "X") /\
   present (req_messageId req) = Some (JStr "m4") /\
   some_write_succeeds (JStr "R") two_devices = true) /\
  forall x,
    In x (pulled_messages (snd (getMessages "R" (fst (handleMessage 20 req two_devices))))) ->
    pulled_id x <> JStr "m4".
Proof.
  intros req. split; [repeat split|].
  intros x.
  apply (X8_pushed_message_not_pulled 20 req two_devices (JStr "R") (JStr "X")
           (JStr "m4") "R" x eq_refl eq_refl eq_refl eq_refl).
Defined.

(** X9: a message that was published at [now] and pooled is still in the
    pool, unchanged, after every sweep up to and including the instant
    [now + ttl], and is gone after the first sweep later than that; without
    a [ttl] in the request the lifetime is 24 hours. *)
Theorem X9_pooled_message_lives_for_its_ttl
    now instant req srv recipient encrypted messageId :
  NoDup (JsMap.keys (messagePool srv)) ->
  present (req_recipientContactCode req) = Some recipient ->
  present (req_encryptedMessage req) = Some encrypted ->
  present (req_messageId req) = Some messageId ->
  some_write_succeeds recipient srv = false ->
  let lifetime := match req_ttl req with Some t => t | None => 86400000 end in
  pool_get messageId
    (messagePool
       (fst (cleanupExpiredMessages instant (fst (handleMessage now req srv))))) =
    if now + lifetime <? instant
    then None
    else Some (stored_message now req recipient encrypted messageId).
Proof.
  intros Hnd Hr He Hi Hnone lifetime.
  destruct (handleMessage_accepted now req srv _ _ _ Hr He Hi) as [_ Hpool].
  cbv zeta in Hpool. rewrite Hnone in Hpool.
  set (msg := stored_message now req recipient encrypted messageId) in *.
  unfold cleanupExpiredMessages. rewrite cleanupExpiredMessages_loop_spec.
  cbn [fst messagePool with_messagePool]. rewrite Hpool.
  assert (NoDup (JsMap.keys (pool_set messageId msg (messagePool srv)))) as Hnd'
    by now apply (JsMapFacts.NoDup_set strict_eq strict_eq_eq).
  rewrite (JsMapFacts.delete_all_selected strict_eq strict_eq_eq _ _ Hnd').
  unfold pool_get.
  rewrite (JsMapFacts.get_filter strict_eq strict_eq_eq _ messageId msg _ Hnd'
             (JsMapFacts.get_set_same strict_eq strict_eq_eq _ _ _)).
  unfold past_expiry. cbn [snd msg stored_message timestamp ttl].
  unfold lifetime, default_ttl.
  now destruct (now + _ <? instant).
Qed.

Lemma X9_pooled_message_lives_for_its_ttl_witness :
  let req := publish "m5" "R" "V" None in
  (NoDup (JsMap.keys (messagePool emptyServer)) /\
   present (req_recipientContactCode req) = Some (JStr "R") /\
   present (req_encryptedMessage req) = Some (JStr "V") /\
   present (req_messageId req) = Some (JStr "m5") /\
   some_write_succeeds (JStr "R") emptyServer = false) /\
  pool_get (JStr "m5")
    (messagePool
       (fst (cleanupExpiredMessages 86400100
               (fst (handleMessage 100 req emptyServer))))) =
    Some (stored_message 100 req (JStr "R") (JStr "V") (JStr "m5")) /\
  pool_get (JStr "m5")
    (messagePool
       (fst (cleanupExpiredMessages 86400101
               (fst (handleMessage 100 req emptyServer))))) = None.
Proof.
  intros req.
  assert (NoDup (JsMap.keys (messagePool emptyServer))) as Hnd by constructor.
  split; [split; [exact Hnd | repeat split]|].
  split.
  - exact (X9_pooled_message_lives_for_its_ttl 100 86400100 req emptyServer
             (JStr "R") (JStr "V") (JStr "m5") Hnd eq_refl eq_refl eq_refl eq_refl).
  - exact (X9_pooled_message_lives_for_its_ttl 100 86400101 req emptyServer
             (JStr "R") (JStr "V") (JStr "m5") Hnd eq_refl eq_refl eq_refl eq_refl).
Defined.

(** ** Frames the server answers with an error *)

(** One write that throws is followed by a second one in the [catch], on
    the same socket, which throws as well. *)
Lemma send_then_catch wsid f srv :
  (let (srv1, out) := send_to wsid f srv in
   match out with
   | Returned => srv1
   | Threw => fst (send_to wsid (error_frame "Invalid message format") srv1)
   end) = after_reply wsid f srv.
Proof.
  unfold send_to, after_reply.
  destruct (ws_send wsid f (sockets srv)) as [socks|] eqn:E; [reflexivity|].
  cbn [fst]. apply ws_send_throws in E.
  destruct (ws_send wsid (error_frame "Invalid message format") (sockets srv))
    as [socks|] eqn:E2; [|reflexivity].
  assert (writable wsid (sockets srv) = true) as Hw.
  { eapply ws_send_writable. rewrite E2. discriminate. }
  congruence.
Qed.

Lemma after_reply_userSessions wsid f srv :
  userSessions (after_reply wsid f srv) = userSessions srv.
Proof. unfold after_reply. now destruct (ws_send wsid f (sockets srv)). Qed.

Lemma after_reply_messagePool wsid f srv :
  messagePool (after_reply wsid f srv) = messagePool srv.
Proof. unfold after_reply. now destruct (ws_send wsid f (sockets srv)). Qed.

(** X10: data that does not parse, or parses to a message whose type is none
    of register_user, status_update and real_time_message, is answered with
    one error frame on the sender's socket ([Invalid message format] for the
    first, [Unknown message type] for the second) and changes nothing else:
    no session is removed or touched, the pool stays as it is.  When the
    socket throws on the write, nothing changes at all. *)
Theorem X10_unknown_frame_gets_error_reply now wsid data srv :
  understood data = false ->
  let srv' := handleWebSocketMessage now wsid data srv in
  srv' = after_reply wsid (error_frame (error_reply data)) srv /\
  userSessions srv' = userSessions srv /\
  messagePool srv' = messagePool srv.
Proof.
  intros Hnot srv'.
  assert (srv' = after_reply wsid (error_frame (error_reply data)) srv) as ->;
    [|now rewrite after_reply_userSessions, after_reply_messagePool].
  unfold srv', handleWebSocketMessage. destruct data as [|m].
  - cbn [error_reply fst]. unfold send_to, after_reply.
    now destruct (ws_send wsid _ (sockets srv)).
  - cbn [understood] in Hnot.
    apply orb_false_elim in Hnot as [Hnot H3].
    apply orb_false_elim in Hnot as [H1 H2].
    unfold dispatch. rewrite H1, H2, H3. cbn [error_reply].
    apply send_then_catch.
Qed.

Lemma X10_unknown_frame_gets_error_reply_witness :
  understood unknown_frame = false /\
  userSessions (handleWebSocketMessage 50 "s1" unknown_frame two_devices) =
    userSessions two_devices /\
  received "s1" (handleWebSocketMessage 50 "s1" unknown_frame two_devices) =
    received "s1" two_devices ++ [error_frame "Unknown message type"].
Proof.
  split; [reflexivity|].
  destruct (X10_unknown_frame_gets_error_reply 50 "s1" unknown_frame two_devices
              eq_refl) as [H1 [H2 _]].
  split; [exact H2|]. rewrite H1. reflexivity.
Defined.

(** X11: a register_user frame whose contact code is missing, falsy or not a
    string enters no session: the sender gets the error frame
    [Invalid contact code] and nothing else changes (nothing at all when the
    socket throws on the write). *)
Theorem X11_register_user_invalid_code now wsid m srv :
  type_is m "register_user" = true ->
  (forall code, present (msg_contactCode m) <> Some (JStr code)) ->
  let srv' := handleWebSocketMessage now wsid (parsed m) srv in
  srv' = after_reply wsid (error_frame "Invalid contact code") srv /\
  userSessions srv' = userSessions srv /\
  messagePool srv' = messagePool srv.
Proof.
  intros Ht Hbad srv'.
  assert (srv' = after_reply wsid (error_frame "Invalid contact code") srv) as ->;
    [|now rewrite after_reply_userSessions, after_reply_messagePool].
  unfold srv', handleWebSocketMessage, dispatch. rewrite Ht.
  unfold registerUser.
  destruct (present (msg_contactCode m)) as [[| | |c|]|];
    try apply send_then_catch.
  exfalso. now apply (Hbad c).
Qed.

Lemma X11_register_user_invalid_code_witness :
  let m := {| msg_type := Some (JStr "register_user");
              msg_contactCode := Some (JNum 42);
              msg_recipientContactCode := None;
              msg_text := "" |} in
  let srv := onConnection "s3" false two_devices in
  (type_is m "register_user" = true /\
   forall code, present (msg_contactCode m) <> Some (JStr code)) /\
  userSessions (handleWebSocketMessage 50 "s3" (parsed m) srv) = userSessions srv /\
  received "s3" (handleWebSocketMessage 50 "s3" (parsed m) srv) =
    [error_frame "Invalid contact code"].
Proof.
  intros m srv.
  assert (forall code, present (msg_contactCode m) <> Some (JStr code)) as Hbad
    by (intros code; discriminate).
  split; [split; [reflexivity | exact Hbad]|].
  destruct (X11_register_user_invalid_code 50 "s3" m srv eq_refl Hbad)
    as [H1 [H2 _]].
  split; [exact H2|]. rewrite H1. reflexivity.
Defined.

(** ** Binding and rebinding a session *)

Lemma handleWebSocketMessage_register_state now wsid m code srv :
  type_is m "register_user" = true ->
  present (msg_contactCode m) = Some (JStr code) ->
  handleWebSocketMessage now wsid (parsed m) srv =
    after_reply wsid (registration_success wsid)
      (with_userSessions
         (session_set wsid (fresh_session now wsid code) (userSessions srv)) srv).
Proof.
  intros Ht Hc. unfold handleWebSocketMessage, dispatch. rewrite Ht.
  unfold registerUser. rewrite Hc. apply send_then_catch.
Qed.

(** X12: a register_user frame with a non-empty string as contact code binds
    the sender's session to that code, and rebinds it when it was bound
    already: the entry of the socket is replaced in place (the number of
    sessions does not change on a rebind), every other session stays as it
    was, and a socket that takes writes gets the registration_success frame
    with its session identifier. *)
Theorem X12_register_user_binds_or_rebinds now wsid m code srv :
  type_is m "register_user" = true ->
  present (msg_contactCode m) = Some (JStr code) ->
  let srv' := handleWebSocketMessage now wsid (parsed m) srv in
  session_get wsid (userSessions srv') = Some (fresh_session now wsid code) /\
  (forall other, other <> wsid ->
     session_get other (userSessions srv') = session_get other (userSessions srv)) /\
  JsMap.keys (userSessions srv') =
    (if session_has wsid (userSessions srv)
     then JsMap.keys (userSessions srv)
     else JsMap.keys (userSessions srv) ++ [wsid]) /\
  (writable wsid (sockets srv) = true ->
     received wsid srv' = received wsid srv ++ [registration_success wsid]).
Proof.
  intros Ht Hc srv'. unfold srv'.
  rewrite (handleWebSocketMessage_register_state now wsid m code srv Ht Hc).
  rewrite after_reply_userSessions. cbn [userSessions with_userSessions].
  split; [apply (JsMapFacts.get_set_same String.eqb String.eqb_eq)|].
  split.
  { intros other Hne.
    now apply (JsMapFacts.get_set_other String.eqb String.eqb_eq). }
  split.
  { unfold session_has, session_set.
    destruct (JsMap.has String.eqb wsid (userSessions srv)) eqn:E.
    - now apply (JsMapFacts.keys_set_present String.eqb).
    - now apply (JsMapFacts.keys_set_absent String.eqb). }
  intros Hw. unfold after_reply. cbn [sockets with_userSessions].
  destruct (ws_send wsid (registration_success wsid) (sockets srv)) as [socks|] eqn:E.
  - eapply received_after_send; [| |exact E]; reflexivity.
  - apply ws_send_throws in E. congruence.
Qed.

Lemma X12_register_user_binds_or_rebinds_witness :
  let m := {| msg_type := Some (JStr "register_user");
              msg_contactCode := Some (JStr "Q");
              msg_recipientContactCode := None;
              msg_text := "" |} in
  let srv' := handleWebSocketMessage 50 "s1" (parsed m) two_devices in
  (type_is m "register_user" = true /\
   present (msg_contactCode m) = Some (JStr "Q")) /\
  option_map contactCode (session_get "s1" (userSessions srv')) = Some "Q" /\
  JsMap.keys (userSessions srv') = ["s1"; "s2"].
Proof.
  intros m srv'. split; [split; reflexivity|].
  destruct (X12_register_user_binds_or_rebinds 50 "s1" m "Q" two_devices
              eq_refl eq_refl) as [H1 [_ [H3 _]]].
  fold srv' in H1, H3. rewrite H1, H3. split; reflexivity.
Defined.

(** ** Who gets a forwarded or broadcast frame *)

Lemma writable_after_send wsid f socks socks' w :
  ws_send wsid f socks = Some socks' -> writable w socks' = writable w socks.
Proof.
  unfold ws_send, writable.
  destruct (socket_get wsid socks) as [sock|] eqn:Hget; [|discriminate].
  destruct (sendThrows sock) eqn:Hthrows; [discriminate|].
  intros [= <-]. unfold socket_get, socket_set in *.
  destruct (String.eqb_spec w wsid) as [->|Hne].
  - rewrite (JsMapFacts.get_set_same String.eqb String.eqb_eq), Hget.
    cbn [sendThrows]. now rewrite Hthrows.
  - now rewrite (JsMapFacts.get_set_other String.eqb String.eqb_eq).
Qed.

Lemma received_send wsid f srv socks w :
  ws_send wsid f (sockets srv) = Some socks ->
  received w (with_sockets socks srv) =
    received w srv ++ (if (wsid =? w)%string then [f] else []).
Proof.
  intros Hsend. destruct (String.eqb_spec wsid w) as [->|Hne].
  - eapply received_after_send; [| |exact Hsend]; reflexivity.
  - rewrite app_nil_r.
    eapply received_other_send; [| |exact Hsend|]; try reflexivity.
    congruence.
Qed.

(** Among entries with distinct keys, those under the key [w] that satisfy
    [p] are the entry found under [w], if it satisfies [p]. *)
Lemma filter_key_get {V : Type} (p : string * V -> bool) w (l : list (string * V)) :
  NoDup (JsMap.keys l) ->
  filter (fun e => p e && (fst e =? w)%string) l =
    match JsMap.get String.eqb w l with
    | Some v => if p (w, v) then [(w, v)] else []
    | None => []
    end.
Proof.
  induction l as [|[k v] rest IH]; intros Hnd; cbn [filter JsMap.get fst];
    [reflexivity|].
  inversion Hnd as [|? ? Hnot Hnd']; subst.
  destruct (String.eqb_spec w k) as [->|Hne].
  - rewrite String.eqb_refl, andb_true_r.
    assert (filter (fun e => p e && (fst e =? k)%string) rest = []) as ->.
    { clear IH Hnd Hnd'. induction rest as [|[k' v'] rest IH]; cbn; [reflexivity|].
      destruct (String.eqb_spec k' k) as [->|Hne'].
      - exfalso. apply Hnot. now left.
      - rewrite andb_false_r. apply IH. intros Hin. apply Hnot. now right. }
    now destruct (p (k, v)).
  - assert ((k =? w)%string = false) as ->
      by (apply String.eqb_neq; congruence).
    rewrite andb_false_r. now apply IH.
Qed.

Section Forwarding.
Variable m : ws_message.

(** What the forwarding loop leaves behind, entry by entry: each socket gets
    one frame per visited session that is bound to the recipient and writes
    through it, the sessions whose write throws are deleted, the pool is
    not touched. *)
Lemma forwardRealTimeMessage_loop_spec entries :
  forall srv,
    let srv' := forwardRealTimeMessage_loop m entries srv in
    (forall w,
       received w srv' =
         received w srv ++
           repeat (verbatim (msg_text m))
             (List.length
                (filter (fun e => reached_by m (sockets srv) e
                                  && (ws (snd e) =? w)%string) entries))) /\
    userSessions srv' =
      JsMap.delete_all String.eqb
        (JsMap.keys (filter (dropped_by m (sockets srv)) entries))
        (userSessions srv) /\
    messagePool srv' = messagePool srv.
Proof.
  induction entries as [|[sid s] rest IH]; intros srv;
    cbn [forwardRealTimeMessage_loop filter].
  - cbn. split; [intros w; now rewrite app_nil_r | split; reflexivity].
  - unfold reached_by at 1, dropped_by at 1. cbn [snd].
    destruct (addressed_to (msg_recipientContactCode m) s) eqn:Ha; cbn [andb].
    + destruct (ws_send (ws s) _ (sockets srv)) as [socks|] eqn:Hsend.
      * assert (writable (ws s) (sockets srv) = true) as Hw.
        { eapply ws_send_writable. rewrite Hsend. discriminate. }
        rewrite Hw. cbn [negb].
        destruct (IH (with_sockets socks srv)) as [Hrec [Hsess Hpool]].
        cbv zeta in Hrec, Hsess, Hpool. cbn [sockets with_sockets] in Hrec, Hsess.
        assert (forall e, reached_by m socks e = reached_by m (sockets srv) e) as Hr.
        { intros e. unfold reached_by.
          now rewrite (writable_after_send _ _ _ _ (ws (snd e)) Hsend). }
        assert (forall e, dropped_by m socks e = dropped_by m (sockets srv) e) as Hd.
        { intros e. unfold dropped_by.
          now rewrite (writable_after_send _ _ _ _ (ws (snd e)) Hsend). }
        split; [|split].
        -- intros w. rewrite Hrec, (received_send _ _ _ _ w Hsend).
           rewrite (filter_ext
                      (fun e => reached_by m socks e && (ws (snd e) =? w)%string)
                      (fun e => reached_by m (sockets srv) e
                                && (ws (snd e) =? w)%string))
             by (intros e; now rewrite Hr).
           destruct ((ws s =? w)%string); cbn [List.length repeat].
           ++ now rewrite <- app_assoc.
           ++ now rewrite app_nil_r.
        -- rewrite Hsess. now rewrite (filter_ext _ _ Hd).
        -- exact Hpool.
      * rewrite (ws_send_throws _ _ _ Hsend). cbn [negb andb].
        destruct (IH (with_userSessions
                        (session_delete sid (userSessions srv)) srv))
          as [Hrec [Hsess Hpool]].
        cbv zeta in Hrec, Hsess, Hpool.
        split; [|split].
        -- exact Hrec.
        -- rewrite Hsess. reflexivity.
        -- exact Hpool.
    + apply IH.
Qed.
End Forwarding.

(** X13: a real_time_message frame is written once to the socket of every
    session bound to its recipient whose socket takes the write, and to no
    other socket; the bound sessions whose socket throws are removed, every
    other session stays; the pool is never touched. *)
Theorem X13_real_time_message_reaches_bound_sessions m srv :
  NoDup (JsMap.keys (userSessions srv)) ->
  sessions_own_socket srv ->
  let srv' := forwardRealTimeMessage m srv in
  (forall w,
     received w srv' =
       received w srv ++
         match session_get w (userSessions srv) with
         | Some s =>
             if reached_by m (sockets srv) (w, s)
             then [verbatim (msg_text m)] else []
         | None => []
         end) /\
  userSessions srv' =
    filter (fun e => negb (dropped_by m (sockets srv) e)) (userSessions srv) /\
  messagePool srv' = messagePool srv.
Proof.
  intros Hnd Hown srv'.
  destruct (forwardRealTimeMessage_loop_spec m (userSessions srv) srv)
    as [Hrec [Hsess Hpool]].
  fold (forwardRealTimeMessage m srv) in Hrec, Hsess, Hpool.
  cbv zeta in Hrec, Hsess, Hpool. fold srv' in Hrec, Hsess, Hpool.
  split; [|split; [|exact Hpool]].
  - intros w. rewrite Hrec. f_equal.
    rewrite (filter_ext_in
               (fun e => reached_by m (sockets srv) e && (ws (snd e) =? w)%string)
               (fun e => reached_by m (sockets srv) e && (fst e =? w)%string)).
    + rewrite (filter_key_get _ w _ Hnd). unfold session_get.
      destruct (JsMap.get String.eqb w (userSessions srv)) as [s|]; [|reflexivity].
      now destruct (reached_by m (sockets srv) (w, s)).
    + intros e Hin. unfold sessions_own_socket in Hown.
      rewrite Forall_forall in Hown. now rewrite (Hown e Hin).
  - rewrite Hsess.
    apply (JsMapFacts.delete_all_selected String.eqb String.eqb_eq). exact Hnd.
Qed.

Lemma X13_real_time_message_reaches_bound_sessions_witness :
  let srv' := forwardRealTimeMessage (real_time_frame "R") one_dead_device in
  (NoDup (JsMap.keys (userSessions one_dead_device)) /\
   sessions_own_socket one_dead_device) /\
  received "s2" srv' =
    received "s2" one_dead_device ++ [verbatim "{type:real_time_message}"] /\
  received "s1" srv' = received "s1" one_dead_device /\
  JsMap.keys (userSessions srv') = ["s2"].
Proof.
  intros srv'.
  assert (NoDup (JsMap.keys (userSessions one_dead_device))) as Hnd.
  { vm_compute. repeat constructor; cbn; intuition discriminate. }
  assert (sessions_own_socket one_dead_device) as Hown.
  { vm_compute. repeat constructor. }
  split; [split; [exact Hnd | exact Hown]|].
  destruct (X13_real_time_message_reaches_bound_sessions (real_time_frame "R")
              one_dead_device Hnd Hown) as [Hrec [Hsess _]].
  fold srv' in Hrec, Hsess.
  rewrite (Hrec "s2"), (Hrec "s1"), Hsess. repeat split.
Defined.

(** The broadcast loop, socket by socket: one frame per visited socket that
    is open and takes the write; sessions and pool are not touched. *)
Lemma broadcastStatusUpdate_loop_spec text clients :
  forall srv,
    let srv' := broadcastStatusUpdate_loop text clients srv in
    (forall w,
       received w srv' =
         received w srv ++
           repeat (verbatim text)
             (List.length
                (filter (fun c => (is_open (snd c) && writable (fst c) (sockets srv))
                                  && (fst c =? w)%string) clients))) /\
    userSessions srv' = userSessions srv /\
    messagePool srv' = messagePool srv.
Proof.
  induction clients as [|[wsid client] rest IH]; intros srv;
    cbn [broadcastStatusUpdate_loop filter fst snd].
  - cbn. split; [intros w; now rewrite app_nil_r | split; reflexivity].
  - destruct (is_open client); cbn [andb]; [|apply IH].
    destruct (ws_send wsid _ (sockets srv)) as [socks|] eqn:Hsend.
    + assert (writable wsid (sockets srv) = true) as Hw.
      { eapply ws_send_writable. rewrite Hsend. discriminate. }
      rewrite Hw.
      destruct (IH (with_sockets socks srv)) as [Hrec [Hsess Hpool]].
      cbv zeta in Hrec, Hsess, Hpool. cbn [sockets with_sockets] in Hrec.
      split; [|split; [exact Hsess | exact Hpool]].
      intros w. rewrite Hrec, (received_send _ _ _ _ w Hsend).
      rewrite (filter_ext
                 (fun c => (is_open (snd c) && writable (fst c) socks)
                           && (fst c =? w)%string)
                 (fun c => (is_open (snd c) && writable (fst c) (sockets srv))
                           && (fst c =? w)%string))
        by (intros c; now rewrite (writable_after_send _ _ _ _ (fst c) Hsend)).
      destruct ((wsid =? w)%string); cbn [andb List.length repeat].
      * now rewrite <- app_assoc.
      * now rewrite app_nil_r.
    + rewrite (ws_send_throws _ _ _ Hsend). cbn [andb]. apply IH.
Qed.

(** X14: a status_update is written once to every socket that is open and
    takes the write, the sender's own and those of connections that never
    registered included, and to no other socket; no session and no pooled
    message is touched. *)
Theorem X14_status_update_reaches_every_open_socket m srv :
  NoDup (JsMap.keys (sockets srv)) ->
  let srv' := broadcastStatusUpdate m srv in
  (forall w,
     received w srv' =
       received w srv ++
         match socket_get w (sockets srv) with
         | Some sock =>
             if is_open sock && negb (sendThrows sock)
             then [verbatim (msg_text m)] else []
         | None => []
         end) /\
  userSessions srv' = userSessions srv /\
  messagePool srv' = messagePool srv.
Proof.
  intros Hnd srv'.
  destruct (broadcastStatusUpdate_loop_spec (msg_text m) (sockets srv) srv)
    as [Hrec [Hsess Hpool]].
  fold (broadcastStatusUpdate m srv) in Hrec, Hsess, Hpool.
  cbv zeta in Hrec, Hsess, Hpool. fold srv' in Hrec, Hsess, Hpool.
  split; [|split; [exact Hsess | exact Hpool]].
  intros w. rewrite Hrec. f_equal.
  rewrite (filter_key_get
             (fun c => is_open (snd c) && writable (fst c) (sockets srv))
             w _ Hnd).
  unfold socket_get, writable. cbn [fst snd]. unfold socket_get.
  destruct (JsMap.get String.eqb w (sockets srv)) as [sock|]; [|reflexivity].
  now destruct (is_open sock && negb (sendThrows sock)).
Qed.

Lemma X14_status_update_reaches_every_open_socket_witness :
  let m := {| msg_type := Some (JStr "status_update");
              msg_contactCode := None;
              msg_recipientContactCode := None;
              msg_text := "{type:status_update,status:online}" |} in
  let srv' := broadcastStatusUpdate m one_registered_one_silent in
  NoDup (JsMap.keys (sockets one_registered_one_silent)) /\
  session_get "s2" (userSessions one_registered_one_silent) = None /\
  received "s2" srv' = [verbatim "{type:status_update,status:online}"] /\
  received "s1" srv' =
    [registration_success "s1"; verbatim "{type:status_update,status:online}"].
Proof.
  intros m srv'.
  assert (NoDup (JsMap.keys (sockets one_registered_one_silent))) as Hnd.
  { vm_compute. repeat constructor; cbn; intuition discriminate. }
  split; [exact Hnd|]. split; [reflexivity|].
  destruct (X14_status_update_reaches_every_open_socket m
              one_registered_one_silent Hnd) as [Hrec _].
  fold srv' in Hrec. rewrite (Hrec "s2"), (Hrec "s1"). split; reflexivity.
Defined.

(** ** Which sessions a publish removes, and which sockets it writes to *)

Lemma get_delete_all_other {K V : Type} (eqb : K -> K -> bool)
    (eqb_eq : forall a b, eqb a b = true <-> a = b) k ks (m : list (K * V)) :
  ~ In k ks ->
  JsMap.get eqb k (JsMap.delete_all eqb ks m) = JsMap.get eqb k m.
Proof.
  unfold JsMap.delete_all. revert m.
  induction ks as [|k' ks IH]; intros m Hnot; cbn [fold_left]; [reflexivity|].
  rewrite IH by (intros Hin; apply Hnot; now right).
  apply (JsMapFacts.get_delete_other eqb eqb_eq).
  intros ->. apply Hnot. now left.
Qed.

Section PushLoopSessions.
Variable msg : message.

(** The push loop deletes sessions bound to the recipient only, and those
    it deletes are among the ones it went through. *)
Lemma attemptDirectDelivery_loop_deletes entries :
  forall srv,
    exists ks,
      userSessions (fst (attemptDirectDelivery_loop msg entries srv)) =
        JsMap.delete_all String.eqb ks (userSessions srv) /\
      forall k, In k ks ->
        exists s, In (k, s) entries /\
                  bound_to (recipientContactCode msg) s = true.
Proof.
  induction entries as [|[sid s] rest IH]; intros srv;
    cbn [attemptDirectDelivery_loop].
  - exists []. split; [reflexivity | intros k []].
  - destruct (strict_eq (JStr (contactCode s)) (recipientContactCode msg)) eqn:Hb.
    + destruct (ws_send (ws s) _ (sockets srv)) as [socks|].
      * exists []. split; [reflexivity | intros k []].
      * destruct (IH (with_userSessions
                        (session_delete sid (userSessions srv)) srv))
          as [ks [Heq Hks]].
        exists (sid :: ks). split; [exact Heq|].
        intros k [<- | Hin].
        -- exists s. split; [now left | exact Hb].
        -- destruct (Hks k Hin) as [s' [Hin' Hb']].
           exists s'. split; [now right | exact Hb'].
    + destruct (IH srv) as [ks [Heq Hks]]. exists ks. split; [exact Heq|].
      intros k Hin. destruct (Hks k Hin) as [s' [Hin' Hb']].
      exists s'. split; [now right | exact Hb'].
Qed.

(** When the loop reports [false], every bound session it went through has
    been deleted. *)
Lemma attemptDirectDelivery_loop_all_dropped entries :
  forall srv,
    snd (attemptDirectDelivery_loop msg entries srv) = false ->
    userSessions (fst (attemptDirectDelivery_loop msg entries srv)) =
      JsMap.delete_all String.eqb
        (JsMap.keys
           (filter (fun e => bound_to (recipientContactCode msg) (snd e)) entries))
        (userSessions srv).
Proof.
  induction entries as [|[sid s] rest IH]; intros srv;
    cbn [attemptDirectDelivery_loop filter snd]; [reflexivity|].
  unfold bound_to at 1.
  destruct (strict_eq (JStr (contactCode s)) (recipientContactCode msg)).
  - destruct (ws_send (ws s) _ (sockets srv)) as [socks|]; [discriminate|].
    intros H. now rewrite (IH _ H).
  - apply IH.
Qed.

(** The loop writes to sockets of the sessions it goes through only. *)
Lemma attemptDirectDelivery_loop_received_other entries w :
  forall srv,
    (forall e, In e entries -> ws (snd e) <> w) ->
    received w (fst (attemptDirectDelivery_loop msg entries srv)) = received w srv.
Proof.
  induction entries as [|[sid s] rest IH]; intros srv Hnot;
    cbn [attemptDirectDelivery_loop]; [reflexivity|].
  assert (forall e, In e rest -> ws (snd e) <> w) as Hrest
    by (intros e He; apply Hnot; now right).
  destruct (strict_eq _ _); [|now apply IH].
  destruct (ws_send (ws s) _ (sockets srv)) as [socks|] eqn:Hsend.
  - cbn [fst]. rewrite (received_send _ _ _ _ w Hsend).
    assert ((ws s =? w)%string = false) as ->.
    { apply String.eqb_neq. apply (Hnot (sid, s)). now left. }
    apply app_nil_r.
  - now rewrite IH.
Qed.
End PushLoopSessions.

(** X15: a publish removes sessions bound to its recipient only.  A session
    bound to another contact code is still there afterwards, unchanged; and
    when no socket took the write, every session bound to the recipient has
    been removed (each of them was tried and threw). *)
Theorem X15_publish_evicts_dead_sessions
    now req srv recipient encrypted messageId :
  NoDup (JsMap.keys (userSessions srv)) ->
  present (req_recipientContactCode req) = Some recipient ->
  present (req_encryptedMessage req) = Some encrypted ->
  present (req_messageId req) = Some messageId ->
  let srv' := fst (handleMessage now req srv) in
  (forall sessionId sess,
     session_get sessionId (userSessions srv) = Some sess ->
     bound_to recipient sess = false ->
     session_get sessionId (userSessions srv') = Some sess) /\
  (some_write_succeeds recipient srv = false ->
   userSessions srv' =
     filter (fun e => negb (bound_to recipient (snd e))) (userSessions srv)).
Proof.
  intros Hnd Hr He Hi srv'.
  destruct (handleMessage_frame now req srv _ _ _ Hr He Hi) as [_ [_ [_ Hsess]]].
  cbv zeta in Hsess. fold srv' in Hsess.
  set (msg := stored_message now req recipient encrypted messageId) in *.
  set (srv1 := with_messagePool (pool_set messageId msg (messagePool srv)) srv) in *.
  split.
  - intros sid s Hget Hunbound. rewrite Hsess.
    destruct (attemptDirectDelivery_loop_deletes msg (userSessions srv1) srv1)
      as [ks [Heq Hks]].
    unfold attemptDirectDelivery. rewrite Heq. unfold session_get.
    rewrite (get_delete_all_other String.eqb String.eqb_eq); [exact Hget|].
    intros Hin. destruct (Hks sid Hin) as [s' [Hin' Hb]].
    apply (JsMapFacts.In_get String.eqb String.eqb_eq _ _ _ Hnd) in Hin'.
    unfold session_get in Hget. cbn [userSessions srv1 with_messagePool] in Hin'.
    assert (s' = s) by congruence. subst s'.
    cbn [msg stored_message recipientContactCode] in Hb. congruence.
  - intros Hnone. rewrite Hsess. unfold attemptDirectDelivery.
    rewrite attemptDirectDelivery_loop_all_dropped.
    + cbn [userSessions srv1 with_messagePool].
      apply (JsMapFacts.delete_all_selected String.eqb String.eqb_eq
               (fun e => bound_to recipient (snd e))).
      exact Hnd.
    + fold (attemptDirectDelivery msg srv1).
      rewrite attemptDirectDelivery_result. exact Hnone.
Qed.

Lemma X15_publish_evicts_dead_sessions_witness :
  let req := publish "m6" "R" "X" None in
  (NoDup (JsMap.keys (userSessions dead_device)) /\
   present (req_recipientContactCode req) = Some (JStr "R") /\
   present (req_encryptedMessage req) = Some (JStr "X") /\
   present (req_messageId req) = Some (JStr "m6") /\
   some_write_succeeds (JStr "R") dead_device = false) /\
  JsMap.keys (userSessions dead_device) = ["s1"] /\
  userSessions (fst (handleMessage 20 req dead_device)) = [].
Proof.
  intros req.
  assert (NoDup (JsMap.keys (userSessions dead_device))) as Hnd.
  { vm_compute. repeat constructor. intros []. }
  split; [split; [exact Hnd | repeat split]|].
  split; [reflexivity|].
  destruct (X15_publish_evicts_dead_sessions 20 req dead_device
              (JStr "R") (JStr "X") (JStr "m6") Hnd eq_refl eq_refl eq_refl)
    as [_ Hall].
  rewrite (Hall eq_refl). reflexivity.
Defined.

(** X16: a publish writes to sockets of registered sessions only: a socket
    with no session under its identifier (the connection never registered,
    or its session went with a close event, a sweep or a failed write) is
    written no frame, whatever the request. *)
Theorem X16_no_push_without_session now req srv w :
  sessions_own_socket srv ->
  session_get w (userSessions srv) = None ->
  received w (fst (handleMessage now req srv)) = received w srv.
Proof.
  intros Hown Hnone.
  assert (forall e, In e (userSessions srv) -> ws (snd e) <> w) as Hnot.
  { intros [sid s] Hin Heq. unfold sessions_own_socket in Hown.
    rewrite Forall_forall in Hown. specialize (Hown _ Hin). cbn [fst snd] in *.
    assert (JsMap.has String.eqb w (userSessions srv) = true) as Hhas.
    { apply (JsMapFacts.has_In String.eqb String.eqb_eq).
      rewrite <- Heq, Hown. unfold JsMap.keys.
      change sid with (fst (sid, s)). now apply in_map. }
    apply (JsMapFacts.get_None_has String.eqb) in Hnone. congruence. }
  destruct (present (req_recipientContactCode req)) as [recipient|] eqn:Hr;
    [|rewrite handleMessage_rejected; auto].
  destruct (present (req_encryptedMessage req)) as [encrypted|] eqn:He;
    [|rewrite handleMessage_rejected; auto].
  destruct (present (req_messageId req)) as [messageId|] eqn:Hi;
    [|rewrite handleMessage_rejected; auto].
  unfold received.
  rewrite (handleMessage_sockets now req srv _ _ _ Hr He Hi).
  apply (attemptDirectDelivery_loop_received_other _ _ w). exact Hnot.
Qed.

Lemma X16_no_push_without_session_witness :
  let srv := onClose "s1" two_devices in
  (sessions_own_socket srv /\ session_get "s1" (userSessions srv) = None) /\
  received "s1" (fst (handleMessage 20 (publish "m4" "R" "X" None) srv)) =
    [registration_success "s1"] /\
  received "s2" (fst (handleMessage 20 (publish "m4" "R" "X" None) srv)) =
    [registration_success "s2"; new_message (JStr "X") (JStr "m4") 20].
Proof.
  intros srv.
  assert (sessions_own_socket srv) as Hown by (vm_compute; repeat constructor).
  split; [split; [exact Hown | reflexivity]|].
  rewrite (X16_no_push_without_session 20 (publish "m4" "R" "X" None) srv "s1"
             Hown eq_refl).
  split; reflexivity.
Defined.

(** ** The session sweep as a whole *)

Lemma socket_get_ws_close a w socks :
  socket_get w (ws_close a socks) =
    if (a =? w)%string
    then option_map closing (socket_get w socks)
    else socket_get w socks.
Proof.
  unfold ws_close, socket_get, socket_set.
  destruct (String.eqb_spec a w) as [->|Hne].
  - destruct (JsMap.get String.eqb w socks) as [sock|] eqn:E.
    + now rewrite (JsMapFacts.get_set_same String.eqb String.eqb_eq).
    + now rewrite E.
  - destruct (JsMap.get String.eqb a socks) as [sock|]; [|reflexivity].
    rewrite (JsMapFacts.get_set_other String.eqb String.eqb_eq); [reflexivity|].
    congruence.
Qed.

Lemma closing_twice (o : option socket) :
  option_map closing (option_map closing o) = option_map closing o.
Proof. now destruct o. Qed.

(** The sockets after the sweep loop: those of the sessions found inactive
    are closing, the others are as they were. *)
Lemma cleanupInactiveSessions_loop_sockets now entries w :
  forall srv cleaned,
    socket_get w
      (sockets (fst (cleanupInactiveSessions_loop now entries srv cleaned))) =
      match filter (fun e => inactive now (snd e) && (ws (snd e) =? w)%string)
              entries with
      | [] => socket_get w (sockets srv)
      | _ :: _ => option_map closing (socket_get w (sockets srv))
      end.
Proof.
  induction entries as [|[sid s] rest IH]; intros srv cleaned;
    cbn [cleanupInactiveSessions_loop filter snd]; [reflexivity|].
  destruct (inactive now s); cbn [andb]; [|apply IH].
  rewrite IH. cbn [sockets with_userSessions with_sockets].
  rewrite socket_get_ws_close.
  destruct ((ws s =? w)%string).
  - destruct (filter _ rest); [reflexivity | apply closing_twice].
  - reflexivity.
Qed.

(** X17: the session sweep at [now] removes exactly the sessions whose
    [lastSeen] is more than 5 minutes old and keeps the others in their
    order, closes the socket of each session it removes and of no other,
    logs the number removed when it is positive, and does not touch the
    pool. *)
Theorem X17_session_sweep now srv :
  NoDup (JsMap.keys (userSessions srv)) ->
  sessions_own_socket srv ->
  let idle := fun e : string * session => lastSeen (snd e) + 300000 <? now in
  let removed := List.length (filter idle (userSessions srv)) in
  let out := cleanupInactiveSessions now srv in
  userSessions (fst out) = filter (fun e => negb (idle e)) (userSessions srv) /\
  snd out = (if (0 <? removed)%nat then [cleaned_inactive_sessions removed] else []) /\
  messagePool (fst out) = messagePool srv /\
  (forall w,
     socket_get w (sockets (fst out)) =
       match session_get w (userSessions srv) with
       | Some s =>
           if idle (w, s)
           then option_map closing (socket_get w (sockets srv))
           else socket_get w (sockets srv)
       | None => socket_get w (sockets srv)
       end).
Proof.
  intros Hnd Hown idle removed out.
  assert (forall e, inactive now (snd e) = idle e) as Hidle.
  { intros e. unfold inactive, idle, session_timeout.
    destruct (Z.gtb_spec (now - lastSeen (snd e)) (5 * 60 * 1000));
      destruct (Z.ltb_spec (lastSeen (snd e) + 300000) now);
      try reflexivity; lia. }
  destruct (cleanupInactiveSessions_loop_spec now (userSessions srv) srv 0%nat)
    as [Hsess [Hpool Hcount]].
  pose proof (fun w => cleanupInactiveSessions_loop_sockets now (userSessions srv)
                         w srv 0%nat) as Hsock.
  unfold out, cleanupInactiveSessions.
  destruct (cleanupInactiveSessions_loop now (userSessions srv) srv 0%nat)
    as [srv' cleaned].
  cbn [fst snd] in *.
  rewrite (filter_ext _ _ Hidle) in Hsess, Hcount.
  split; [|split; [|split]].
  - rewrite Hsess.
    apply (JsMapFacts.delete_all_selected String.eqb String.eqb_eq). exact Hnd.
  - rewrite Hcount. reflexivity.
  - exact Hpool.
  - intros w. rewrite Hsock.
    rewrite (filter_ext_in
               (fun e => inactive now (snd e) && (ws (snd e) =? w)%string)
               (fun e => idle e && (fst e =? w)%string)).
    + rewrite (filter_key_get idle w _ Hnd). unfold session_get.
      destruct (JsMap.get String.eqb w (userSessions srv)) as [s|]; [|reflexivity].
      now destruct (idle (w, s)).
    + intros e Hin. unfold sessions_own_socket in Hown.
      rewrite Forall_forall in Hown. now rewrite (Hown e Hin), Hidle.
Qed.

Lemma X17_session_sweep_witness :
  (NoDup (JsMap.keys (userSessions two_devices)) /\
   sessions_own_socket two_devices) /\
  JsMap.keys (userSessions (fst (cleanupInactiveSessions 300006 two_devices))) =
    ["s2"] /\
  snd (cleanupInactiveSessions 300006 two_devices) = [cleaned_inactive_sessions 1] /\
  option_map readyState
    (socket_get "s1" (sockets (fst (cleanupInactiveSessions 300006 two_devices)))) =
    Some CLOSING /\
  option_map readyState
    (socket_get "s2" (sockets (fst (cleanupInactiveSessions 300006 two_devices)))) =
    Some OPEN.
Proof.
  assert (NoDup (JsMap.keys (userSessions two_devices))) as Hnd.
  { vm_compute. repeat constructor; cbn; intuition discriminate. }
  assert (sessions_own_socket two_devices) as Hown
    by (vm_compute; repeat constructor).
  split; [split; [exact Hnd | exact Hown]|].
  destruct (X17_session_sweep 300006 two_devices Hnd Hown)
    as [Hsess [Hlog [_ Hsock]]].
  rewrite Hsess, Hlog, (Hsock "s1"), (Hsock "s2"). repeat split.
Defined.

(** ** What every session in the registry looks like *)

Lemma In_set {K V : Type} (eqb : K -> K -> bool)
    (eqb_eq : forall a b, eqb a b = true <-> a = b) k v (m : list (K * V)) e :
  In e (JsMap.set eqb k v m) -> e = (k, v) \/ In e m.
Proof.
  induction m as [|[k' v'] rest IH]; cbn [JsMap.set].
  - intros [<- | []]. now left.
  - destruct (eqb k k') eqn:E.
    + apply eqb_eq in E. subst k'. intros [<- | Hin]; [now left|].
      right. now right.
    + intros [<- | Hin]; [right; now left|].
      destruct (IH Hin) as [-> | Hin']; [now left | right; now right].
Qed.

Lemma incl_delete_all ks (m : list (string * session)) :
  incl (JsMap.delete_all String.eqb ks m) m.
Proof.
  rewrite (JsMapFacts.delete_all_filter String.eqb String.eqb_eq).
  apply incl_filter.
Qed.

Lemma handleMessage_sessions_incl now req srv :
  incl (userSessions (fst (handleMessage now req srv))) (userSessions srv).
Proof.
  destruct (present (req_recipientContactCode req)) as [recipient|] eqn:Hr;
    [|rewrite handleMessage_rejected; [apply incl_refl | auto]].
  destruct (present (req_encryptedMessage req)) as [encrypted|] eqn:He;
    [|rewrite handleMessage_rejected; [apply incl_refl | auto]].
  destruct (present (req_messageId req)) as [messageId|] eqn:Hi;
    [|rewrite handleMessage_rejected; [apply incl_refl | auto]].
  destruct (handleMessage_frame now req srv _ _ _ Hr He Hi) as [_ [_ [_ Hsess]]].
  cbv zeta in Hsess. rewrite Hsess. unfold attemptDirectDelivery.
  match goal with
  | |- context [attemptDirectDelivery_loop ?m ?l ?s] =>
      destruct (attemptDirectDelivery_loop_deletes m l s) as [ks [Heq _]]
  end.
  rewrite Heq. apply incl_delete_all.
Qed.

(** The sessions after an inbound frame are sessions that were there, or the
    one [registerUser] has just entered for the sender. *)
Lemma handleWebSocketMessage_sessions now wsid data srv e :
  In e (userSessions (handleWebSocketMessage now wsid data srv)) ->
  In e (userSessions srv) \/
  exists code, code <> "" /\ e = (wsid, fresh_session now wsid code).
Proof.
  unfold handleWebSocketMessage. destruct data as [|m].
  - rewrite send_to_userSessions. now left.
  - unfold dispatch. destruct (type_is m "register_user").
    { unfold registerUser.
      destruct (present (msg_contactCode m)) as [[| | |c|]|] eqn:Hc;
        rewrite send_then_catch, after_reply_userSessions; try (now left).
      cbn [userSessions with_userSessions]. intros Hin.
      apply (In_set String.eqb String.eqb_eq) in Hin as [-> | Hin]; [|now left].
      right. exists c. split; [|reflexivity].
      apply present_Some in Hc as [_ Ht]. cbn [truthy] in Ht.
      intros ->. discriminate Ht. }
    destruct (type_is m "status_update").
    { unfold broadcastStatusUpdate.
      rewrite broadcastStatusUpdate_loop_userSessions. now left. }
    destruct (type_is m "real_time_message").
    { destruct (forwardRealTimeMessage_loop_spec m (userSessions srv) srv)
        as [_ [Hsess _]].
      unfold forwardRealTimeMessage. cbv zeta in Hsess. rewrite Hsess.
      intros Hin. left. now apply incl_delete_all in Hin. }
    rewrite send_then_catch, after_reply_userSessions. now left.
Qed.

Section SessionInvariant.
Variable P : string * session -> Prop.
Hypothesis P_registered :
  forall now wsid code, code <> "" -> P (wsid, fresh_session now wsid code).

(** Whatever holds of every entry [registerUser] can make holds of every
    session in every state the server goes through. *)
Lemma reachable_sessions srv : reachable srv -> Forall P (userSessions srv).
Proof.
  induction 1 as [| sid throws srv _ IH | sid srv _ IH | now wsid data srv _ IH
                 | now req srv _ IH | code srv _ IH | mid srv _ IH
                 | now req srv _ IH | now srv _ IH | now srv _ IH].
  - constructor.
  - exact IH.
  - cbn [onClose userSessions with_userSessions with_sockets].
    eapply incl_Forall; [|exact IH]. apply incl_filter.
  - apply Forall_forall. intros e Hin.
    apply handleWebSocketMessage_sessions in Hin as [Hin | [code [Hne ->]]].
    + rewrite Forall_forall in IH. now apply IH.
    + now apply P_registered.
  - eapply incl_Forall; [apply handleMessage_sessions_incl | exact IH].
  - rewrite getMessages_spec. exact IH.
  - exact IH.
  - unfold registerNode.
    destruct (present (req_nodeUrl req)); [|exact IH].
    destruct (present (req_publicKey req)); exact IH.
  - unfold cleanupExpiredMessages. rewrite cleanupExpiredMessages_loop_spec.
    exact IH.
  - destruct (cleanupInactiveSessions_loop_spec now (userSessions srv) srv 0%nat)
      as [Hsess _].
    unfold cleanupInactiveSessions.
    destruct (cleanupInactiveSessions_loop now (userSessions srv) srv 0%nat)
      as [srv' cleaned].
    cbn [fst] in *. rewrite Hsess.
    eapply incl_Forall; [apply incl_delete_all | exact IH].
Qed.
End SessionInvariant.

(** X18: in every state the server goes through, no identifier occurs twice
    in the pool, no session identifier occurs twice in the registry, and
    every session in the registry sits under the identifier of its own
    socket, is bound to a non-empty contact code and has the status
    [online] (no inbound frame, status_update included, ever changes the
    status of a session). *)
Theorem X18_reachable_state_invariants srv :
  reachable srv ->
  NoDup (JsMap.keys (messagePool srv)) /\
  NoDup (JsMap.keys (userSessions srv)) /\
  Forall (fun e => ws (snd e) = fst e /\
                   contactCode (snd e) <> "" /\
                   status (snd e) = "online")
    (userSessions srv).
Proof.
  intros Hreach. split; [|split].
  - apply (reachable_wf srv Hreach).
  - apply (reachable_wf srv Hreach).
  - apply reachable_sessions; [|exact Hreach].
    intros now wsid code Hne. cbn. repeat split. exact Hne.
Qed.

Lemma X18_reachable_state_invariants_witness :
  let srv :=
    handleWebSocketMessage 200000 "s1" status_update_frame
      (fst (handleMessage 20 (publish "m1" "Q" "X" None) two_devices)) in
  reachable srv /\
  JsMap.keys (messagePool srv) = [JStr "m1"] /\
  map (fun e => status (snd e)) (userSessions srv) = ["online"; "online"] /\
  NoDup (JsMap.keys (userSessions srv)).
Proof.
  intros srv.
  assert (reachable srv) as Hreach.
  { unfold srv, two_devices. repeat constructor. }
  split; [exact Hreach|]. split; [reflexivity|]. split; [reflexivity|].
  apply (X18_reachable_state_invariants srv Hreach).
Defined.

Lemma reachable_sessions_own_socket srv :
  reachable srv -> sessions_own_socket srv.
Proof.
  intros Hreach. unfold sessions_own_socket.
  apply reachable_sessions; [|exact Hreach]. reflexivity.
Qed.

(** ** Pull and publish at the edges *)

(** X19: a pull for a recipient code nothing is pooled for answers the empty
    list and leaves the server exactly as it was. *)
Theorem X19_pull_nothing_pooled code srv :
  (forall e, In e (messagePool srv) -> for_recipient code e = false) ->
  getMessages code srv = (srv, json (messages_body [])).
Proof.
  intros Hnone. rewrite getMessages_spec.
  assert (filter (for_recipient code) (messagePool srv) = []) as ->.
  { induction (messagePool srv) as [|e rest IH]; [reflexivity|].
    cbn [filter]. rewrite (Hnone e (or_introl eq_refl)).
    apply IH. intros e' Hin. apply Hnone. now right. }
  cbn. now rewrite with_messagePool_same.
Qed.

Lemma X19_pull_nothing_pooled_witness :
  (forall e, In e (messagePool three_pooled) -> for_recipient "Z" e = false) /\
  getMessages "Z" three_pooled = (three_pooled, json (messages_body [])).
Proof.
  assert (forall e, In e (messagePool three_pooled) -> for_recipient "Z" e = false)
    as Hnone.
  { intros e [<- | [<- | [<- | []]]]; reflexivity. }
  split; [exact Hnone|].
  apply (X19_pull_nothing_pooled "Z" three_pooled Hnone).
Defined.

(** Storing under [k] an entry the filter rejects leaves, of what the filter
    keeps, the entries under the other keys, in their order. *)
Lemma filter_set_hidden (p : jsval * message -> bool) k v pool :
  NoDup (JsMap.keys pool) ->
  p (k, v) = false ->
  filter p (pool_set k v pool) = filter p (pool_delete k pool).
Proof.
  intros Hnd Hp. unfold pool_set, pool_delete.
  induction pool as [|[k' v'] rest IH]; cbn [JsMap.set JsMap.delete filter fst].
  - now rewrite Hp.
  - inversion Hnd as [|? ? Hnot Hnd']; subst.
    destruct (strict_eq k k') eqn:E; cbn [negb filter].
    + apply strict_eq_eq in E. subst k'. rewrite Hp.
      fold (JsMap.delete strict_eq k rest).
      rewrite (JsMapFacts.delete_absent strict_eq); [reflexivity|].
      destruct (JsMap.has strict_eq k rest) eqn:Hhas; [|reflexivity].
      apply (JsMapFacts.has_In strict_eq strict_eq_eq) in Hhas. contradiction.
    + fold (JsMap.delete strict_eq k rest). now rewrite (IH Hnd').
Qed.

(** X20: the guard of the publish lets any truthy recipient code through.
    When it is not a string (a number, [true], an object) the message is
    pooled without any write, since sessions are bound to strings, and no
    pull, whatever its recipient code, returns or removes it: the response
    of the pull has no element with that identifier (it is the response the
    pull would give with the identifier absent from the pool), and the
    message is still pooled after the pull. *)
Theorem X20_non_string_recipient_is_never_served
    now req srv recipient encrypted messageId code :
  NoDup (JsMap.keys (messagePool srv)) ->
  present (req_recipientContactCode req) = Some recipient ->
  present (req_encryptedMessage req) = Some encrypted ->
  present (req_messageId req) = Some messageId ->
  (forall s, recipient <> JStr s) ->
  let srv' := fst (handleMessage now req srv) in
  snd (handleMessage now req srv) = json (publish_body true messageId false true) /\
  sockets srv' = sockets srv /\
  (forall x,
     In x (pulled_messages (snd (getMessages code srv'))) ->
     pulled_id x <> messageId) /\
  pulled_messages (snd (getMessages code srv')) =
    pulled_messages
      (snd (getMessages code
              (with_messagePool (pool_delete messageId (messagePool srv)) srv))) /\
  pool_get messageId (messagePool (fst (getMessages code srv'))) =
    Some (stored_message now req recipient encrypted messageId).
Proof.
  intros Hnd Hr He Hi Hnot srv'.
  assert (some_write_succeeds recipient srv = false) as Hnone.
  { unfold some_write_succeeds.
    destruct (existsb _ (userSessions srv)) eqn:E; [|reflexivity].
    apply existsb_exists in E as [e [_ He']].
    apply andb_true_iff in He' as [Hb _]. unfold bound_to in Hb.
    apply strict_eq_eq in Hb. exfalso. apply (Hnot (contactCode (snd e))).
    now symmetry. }
  destruct (handleMessage_accepted now req srv _ _ _ Hr He Hi) as [Hresp Hpool].
  cbv zeta in Hresp, Hpool. rewrite Hnone in Hresp, Hpool. fold srv' in Hpool.
  set (msg := stored_message now req recipient encrypted messageId) in *.
  split; [exact Hresp|]. split.
  { unfold srv'. rewrite (handleMessage_sockets now req srv _ _ _ Hr He Hi).
    destruct (attemptDirectDelivery_loop_written msg
                (userSessions (with_messagePool
                                 (pool_set messageId msg (messagePool srv)) srv))
                (with_messagePool (pool_set messageId msg (messagePool srv)) srv))
      as [_ Hf].
    apply Hf. fold (attemptDirectDelivery msg
                      (with_messagePool (pool_set messageId msg (messagePool srv)) srv)).
    now rewrite attemptDirectDelivery_result. }
  assert (NoDup (JsMap.keys (messagePool srv'))) as Hnd'.
  { rewrite Hpool. now apply (JsMapFacts.NoDup_set strict_eq strict_eq_eq). }
  assert (pool_get messageId (messagePool srv') = Some msg) as Hget.
  { rewrite Hpool. apply (JsMapFacts.get_set_same strict_eq strict_eq_eq). }
  assert (forall e, In e (messagePool srv') -> for_recipient code e = true ->
            fst e <> messageId) as Hother.
  { intros [k m] Hin Hfor Hk. cbn [fst] in Hk. subst k.
    apply (JsMapFacts.In_get strict_eq strict_eq_eq _ _ _ Hnd') in Hin.
    unfold pool_get in Hget. assert (m = msg) by congruence. subst m.
    unfold for_recipient in Hfor.
    cbn [snd msg stored_message recipientContactCode] in Hfor.
    apply strict_eq_eq in Hfor. now apply (Hnot code). }
  split; [|split].
  - intros x Hin. rewrite getMessages_spec in Hin.
    cbn [snd pulled_messages body json] in Hin.
    apply in_map_iff in Hin as [e [<- Hin]]. apply filter_In in Hin as [Hin Hfor].
    cbn [as_pulled pulled_id]. now apply Hother.
  - rewrite !getMessages_spec. cbn [snd pulled_messages body json].
    cbn [messagePool with_messagePool]. rewrite Hpool. f_equal.
    apply filter_set_hidden; [exact Hnd|].
    unfold for_recipient. cbn [snd msg stored_message recipientContactCode].
    destruct (strict_eq recipient (JStr code)) eqn:E; [|reflexivity].
    apply strict_eq_eq in E. now destruct (Hnot code).
  - rewrite getMessages_spec. cbn [fst messagePool with_messagePool].
    unfold pool_get in *.
    rewrite (get_delete_all_other strict_eq strict_eq_eq); [exact Hget|].
    intros Hin. unfold JsMap.keys in Hin.
    apply in_map_iff in Hin as [e [Hk Hin]].
    apply filter_In in Hin as [Hin Hfor]. now apply (Hother e Hin Hfor).
Qed.

Lemma X20_non_string_recipient_is_never_served_witness :
  let req := {| req_recipientContactCode := Some (JNum 5);
                req_encryptedMessage := Some (JStr "X");
                req_messageId := Some (JStr "m8");
                req_ttl := None |} in
  (NoDup (JsMap.keys (messagePool two_devices)) /\
   present (req_recipientContactCode req) = Some (JNum 5) /\
   present (req_encryptedMessage req) = Some (JStr "X") /\
   present (req_messageId req) = Some (JStr "m8") /\
   forall s, JNum 5 <> JStr s) /\
  pulled_messages
    (snd (getMessages "5" (fst (handleMessage 20 req two_devices)))) = [] /\
  pool_has (JStr "m8")
    (messagePool (fst (getMessages "5" (fst (handleMessage 20 req two_devices))))) =
    true.
Proof.
  intros req.
  assert (NoDup (JsMap.keys (messagePool two_devices))) as Hnd by constructor.
  assert (forall s, JNum 5 <> JStr s) as Hnot by (intros s; discriminate).
  split; [split; [exact Hnd | repeat split; exact Hnot]|].
  destruct (X20_non_string_recipient_is_never_served 20 req two_devices
              (JNum 5) (JStr "X") (JStr "m8") "5" Hnd eq_refl eq_refl eq_refl Hnot)
    as [_ [_ [_ [Hresp Hget]]]].
  split; [rewrite Hresp; reflexivity|].
  apply (JsMapFacts.has_get strict_eq). unfold pool_get in Hget.
  rewrite Hget. discriminate.
Defined.

(** ** Binding, sweeping, and then publishing *)

(** X21: once a socket that takes writes has registered for a contact code,
    a publish for that code is answered delivered=true and pooled=false,
    and its identifier is not in the pool afterwards. *)
Theorem X21_publish_after_register_is_delivered
    now later wsid m code req srv encrypted messageId :
  type_is m "register_user" = true ->
  present (msg_contactCode m) = Some (JStr code) ->
  writable wsid (sockets srv) = true ->
  present (req_recipientContactCode req) = Some (JStr code) ->
  present (req_encryptedMessage req) = Some encrypted ->
  present (req_messageId req) = Some messageId ->
  let srv1 := handleWebSocketMessage now wsid (parsed m) srv in
  snd (handleMessage later req srv1) =
    json (publish_body true messageId true false) /\
  pool_get messageId (messagePool (fst (handleMessage later req srv1))) = None.
Proof.
  intros Ht Hc Hw Hr He Hi srv1.
  assert (some_write_succeeds (JStr code) srv1 = true) as Hsome.
  { unfold srv1.
    rewrite (handleWebSocketMessage_register_state now wsid m code srv Ht Hc).
    unfold some_write_succeeds. apply existsb_exists.
    exists (wsid, fresh_session now wsid code).
    rewrite after_reply_userSessions. cbn [userSessions with_userSessions].
    split.
    - apply (JsMapFacts.get_In String.eqb String.eqb_eq).
      apply (JsMapFacts.get_set_same String.eqb String.eqb_eq).
    - cbn [snd fresh_session ws contactCode]. unfold bound_to.
      cbn [contactCode fresh_session].
      rewrite (proj2 (strict_eq_eq (JStr code) (JStr code)) eq_refl).
      cbn [andb]. unfold after_reply. cbn [sockets with_userSessions].
      destruct (ws_send wsid (registration_success wsid) (sockets srv))
        as [socks|] eqn:E; [|exact Hw].
      cbn [sockets with_sockets].
      now rewrite (writable_after_send _ _ _ _ wsid E). }
  destruct (handleMessage_accepted later req srv1 _ _ _ Hr He Hi) as [Hresp Hpool].
  cbv zeta in Hresp, Hpool. rewrite Hsome in Hresp, Hpool.
  split; [exact Hresp|]. rewrite Hpool.
  apply (JsMapFacts.get_delete_same strict_eq).
Qed.

Lemma X21_publish_after_register_is_delivered_witness :
  let m := {| msg_type := Some (JStr "register_user");
              msg_contactCode := Some (JStr "Q");
              msg_recipientContactCode := None;
              msg_text := "" |} in
  let srv := onConnection "s3" false one_pooled in
  let req := publish "m2" "Q" "Y" None in
  (type_is m "register_user" = true /\
   present (msg_contactCode m) = Some (JStr "Q") /\
   writable "s3" (sockets srv) = true /\
   present (req_recipientContactCode req) = Some (JStr "Q") /\
   present (req_encryptedMessage req) = Some (JStr "Y") /\
   present (req_messageId req) = Some (JStr "m2")) /\
  snd (handleMessage 30 req (handleWebSocketMessage 20 "s3" (parsed m) srv)) =
    json (publish_body true (JStr "m2") true false).
Proof.
  intros m srv req. split; [repeat split|].
  apply (X21_publish_after_register_is_delivered 20 30 "s3" m "Q" req srv
           (JStr "Y") (JStr "m2") eq_refl eq_refl eq_refl eq_refl eq_refl eq_refl).
Defined.

(** X22: when every session bound to a recipient has a [lastSeen] more than
    5 minutes old at the sweep, a publish for that recipient after the
    sweep is answered delivered=false and pooled=true and the message is in
    the pool. *)
Theorem X22_publish_after_idle_sweep_is_pooled
    sweep later req srv recipient encrypted messageId :
  NoDup (JsMap.keys (userSessions srv)) ->
  (forall e, In e (userSessions srv) ->
     bound_to recipient (snd e) = true -> lastSeen (snd e) + 300000 < sweep) ->
  present (req_recipientContactCode req) = Some recipient ->
  present (req_encryptedMessage req) = Some encrypted ->
  present (req_messageId req) = Some messageId ->
  let srv1 := fst (cleanupInactiveSessions sweep srv) in
  snd (handleMessage later req srv1) =
    json (publish_body true messageId false true) /\
  pool_get messageId (messagePool (fst (handleMessage later req srv1))) =
    Some (stored_message later req recipient encrypted messageId).
Proof.
  intros Hnd Hidle Hr He Hi srv1.
  assert (some_write_succeeds recipient srv1 = false) as Hnone.
  { unfold some_write_succeeds.
    destruct (existsb _ (userSessions srv1)) eqn:E; [|reflexivity].
    apply existsb_exists in E as [e [Hin He']].
    apply andb_true_iff in He' as [Hb _].
    unfold srv1, cleanupInactiveSessions in Hin.
    destruct (cleanupInactiveSessions_loop_spec sweep (userSessions srv) srv 0%nat)
      as [Hsess _].
    destruct (cleanupInactiveSessions_loop sweep (userSessions srv) srv 0%nat)
      as [srv' cleaned].
    cbn [fst] in *. rewrite Hsess in Hin.
    rewrite (JsMapFacts.delete_all_selected String.eqb String.eqb_eq _ _ Hnd) in Hin.
    apply filter_In in Hin as [Hin Hkeep].
    specialize (Hidle e Hin Hb).
    unfold inactive, session_timeout in Hkeep.
    destruct (Z.gtb_spec (sweep - lastSeen (snd e)) (5 * 60 * 1000));
      [discriminate | lia]. }
  destruct (handleMessage_accepted later req srv1 _ _ _ Hr He Hi) as [Hresp Hpool].
  cbv zeta in Hresp, Hpool. rewrite Hnone in Hresp, Hpool.
  split; [exact Hresp|]. rewrite Hpool.
  apply (JsMapFacts.get_set_same strict_eq strict_eq_eq).
Qed.

Lemma X22_publish_after_idle_sweep_is_pooled_witness :
  let req := publish "m4" "R" "X" None in
  (NoDup (JsMap.keys (userSessions two_devices)) /\
   (forall e, In e (userSessions two_devices) ->
      bound_to (JStr "R") (snd e) = true -> lastSeen (snd e) + 300000 < 300011) /\
   present (req_recipientContactCode req) = Some (JStr "R") /\
   present (req_encryptedMessage req) = Some (JStr "X") /\
   present (req_messageId req) = Some (JStr "m4")) /\
  snd (handleMessage 300020 req (fst (cleanupInactiveSessions 300011 two_devices))) =
    json (publish_body true (JStr "m4") false true).
Proof.
  intros req.
  assert (NoDup (JsMap.keys (userSessions two_devices))) as Hnd.
  { vm_compute. repeat constructor; cbn; intuition discriminate. }
  assert (forall e, In e (userSessions two_devices) ->
            bound_to (JStr "R") (snd e) = true ->
            lastSeen (snd e) + 300000 < 300011) as Hidle.
  { intros e [<- | [<- | []]] _; cbn; lia. }
  split; [split; [exact Hnd | split; [exact Hidle | repeat split]]|].
  apply (X22_publish_after_idle_sweep_is_pooled 300011 300020 req two_devices
           (JStr "R") (JStr "X") (JStr "m4") Hnd Hidle eq_refl eq_refl eq_refl).
Defined.

(** ** Sweeping twice *)

Lemma filter_past_expiry_compose t1 t2 (l : list (jsval * message)) :
  t1 <= t2 ->
  filter (fun e => negb (past_expiry t2 e))
    (filter (fun e => negb (past_expiry t1 e)) l) =
  filter (fun e => negb (past_expiry t2 e)) l.
Proof.
  intros Hle. induction l as [|e rest IH]; [reflexivity|].
  cbn [filter].
  destruct (past_expiry t1 e) eqn:E1; destruct (past_expiry t2 e) eqn:E2;
    cbn [negb filter]; rewrite ?E2; cbn [negb]; try (now rewrite IH).
  unfold past_expiry in E1, E2.
  apply Z.ltb_lt in E1. apply Z.ltb_ge in E2. lia.
Qed.

(** X23: sweeps compose: the pool after a sweep at [t1] followed by a sweep
    at a later or equal instant [t2] is the pool after the sweep at [t2]
    alone; in particular a second sweep at the same instant removes
    nothing. *)
Theorem X23_sweeps_compose t1 t2 srv :
  NoDup (JsMap.keys (messagePool srv)) ->
  t1 <= t2 ->
  messagePool
    (fst (cleanupExpiredMessages t2 (fst (cleanupExpiredMessages t1 srv)))) =
  messagePool (fst (cleanupExpiredMessages t2 srv)).
Proof.
  intros Hnd Hle.
  assert (forall t s, NoDup (JsMap.keys (messagePool s)) ->
            messagePool (fst (cleanupExpiredMessages t s)) =
            filter (fun e => negb (past_expiry t e)) (messagePool s)) as Hsweep.
  { intros t s Hs. unfold cleanupExpiredMessages.
    rewrite cleanupExpiredMessages_loop_spec. cbn [fst messagePool with_messagePool].
    now apply (JsMapFacts.delete_all_selected strict_eq strict_eq_eq). }
  rewrite (Hsweep t2 (fst (cleanupExpiredMessages t1 srv))).
  - rewrite (Hsweep t1 srv Hnd), (Hsweep t2 srv Hnd).
    now apply filter_past_expiry_compose.
  - rewrite (Hsweep t1 srv Hnd). now apply JsMapFacts.keys_filter.
Qed.

Lemma X23_sweeps_compose_witness :
  (NoDup (JsMap.keys (messagePool three_pooled)) /\ 1011 <= 86400021) /\
  JsMap.keys
    (messagePool
       (fst (cleanupExpiredMessages 86400021
               (fst (cleanupExpiredMessages 1011 three_pooled))))) = [JStr "m3"].
Proof.
  assert (NoDup (JsMap.keys (messagePool three_pooled))) as Hnd.
  { vm_compute. repeat constructor; cbn; intuition discriminate. }
  assert (1011 <= 86400021) as Hle by lia.
  split; [split; [exact Hnd | exact Hle]|].
  rewrite (X23_sweeps_compose 1011 86400021 three_pooled Hnd Hle).
  reflexivity.
Defined.

(** ** Which frames write [lastSeen] *)





(** ** After the close event *)

(** A socket whose close event has run is written no broadcast any more:
    it is no longer [OPEN]. *)
Lemma broadcastStatusUpdate_skips_closed_socket m sessionId srv :
  NoDup (JsMap.keys (sockets srv)) ->
  received sessionId (broadcastStatusUpdate m (onClose sessionId srv)) =
    received sessionId srv.
Proof.
  intros Hnd. set (srv1 := onClose sessionId srv).
  assert (NoDup (JsMap.keys (sockets srv1))) as Hnd1.
  { cbn [srv1 onClose sockets with_userSessions with_sockets]. unfold ws_closed.
    destruct (socket_get sessionId (sockets srv)); [|exact Hnd].
    now apply (JsMapFacts.NoDup_set String.eqb String.eqb_eq). }
  destruct (broadcastStatusUpdate_loop_spec (msg_text m) (sockets srv1) srv1)
    as [Hrec _].
  fold (broadcastStatusUpdate m srv1) in Hrec. cbv zeta in Hrec.
  rewrite Hrec.
  rewrite (filter_key_get
             (fun c => is_open (snd c) && writable (fst c) (sockets srv1))
             sessionId _ Hnd1).
  assert (received sessionId srv1 = received sessionId srv /\
          match JsMap.get String.eqb sessionId (sockets srv1) with
          | Some sock => is_open sock = false
          | None => True
          end) as [Hsame Hclosed].
  { unfold received, socket_get.
    cbn [srv1 onClose sockets with_userSessions with_sockets]. unfold ws_closed.
    unfold socket_get, socket_set.
    destruct (JsMap.get String.eqb sessionId (sockets srv)) as [sock|] eqn:E.
    - rewrite (JsMapFacts.get_set_same String.eqb String.eqb_eq).
      split; reflexivity.
    - rewrite E. split; [reflexivity | exact I]. }
  rewrite Hsame.
  destruct (JsMap.get String.eqb sessionId (sockets srv1)) as [sock|];
    [|apply app_nil_r].
  cbn [snd]. rewrite Hclosed. cbn [andb List.length repeat]. apply app_nil_r.
Qed.
